(** * zod-to-json-schema: the discovery and aggregation pipeline

    A shallow embedding of the three source files of the CLI
    ([types.ts], [scanner.ts], [index.ts]) together with the properties
    of the Schema Classifier, the Name Normalizer, the Schema Aggregator,
    the Converter Adapter and the Output Writer.

    Layout: the host-language primitives the code relies on ([JS]), one
    module per source file, the Aggregator as the specification words
    it, and then the properties.

    The collaborators the code calls but does not define are parameters:
    the converter [z.toJSONSchema], [path.basename], [path.join] and
    [JSON.stringify].  The file system is the list of the calls made to
    it; [fs.stat], [fs.mkdir], [fs.writeFile], the file matcher and the
    module loader are parameters that answer or throw.  Console output,
    and with it the [verbose] flag of the two writers, is left out, the
    counters the final lines print being part of the result. *)

From Stdlib Require Import ZArith Ascii String List Lia.
From stdpp Require Import base gmap strings list.

Set Warnings "-register-all".

(** ** Host-language primitives *)

Module JS.

(** A string is its sequence of code units.  The model covers code units
    below 256 (Latin-1), which contains every ASCII identifier. *)

(** [s.startsWith(p)] *)
Definition startsWith (s p : string) : bool := String.prefix p s.

(** [s.endsWith(p)] *)
Definition endsWith (s p : string) : bool :=
  let n := String.length s in
  let k := String.length p in
  (k <=? n)%nat && String.eqb (substring (n - k) k s) p.

(** Relative index of [String.prototype.slice]: a negative index counts
    from the end, and every index is clamped to [0, len]. *)
Definition relative_index (len k : Z) : Z :=
  if (k <? 0)%Z then Z.max (len + k) 0 else Z.min k len.

(** [s.slice(b, e)]; [e = None] stands for an omitted second argument. *)
Definition slice (s : string) (b : Z) (e : option Z) : string :=
  let len := Z.of_nat (String.length s) in
  let from := relative_index len b in
  let to := match e with Some e => relative_index len e | None => len end in
  substring (Z.to_nat from) (Z.to_nat (to - from)) s.

(** [c === c.toUpperCase()] for a one-unit string [c].  Among the code
    units below 256 the ones that [toUpperCase] changes are a-z, the
    micro sign (to U+039C), sharp s (to SS), and the accented lowercase
    letters 0xE0-0xFE other than the division sign, and 0xFF (to U+0178). *)
Definition fixed_by_toUpperCase (c : ascii) : bool :=
  let n := N_of_ascii c in
  negb (((97 <=? n) && (n <=? 122))
        || (n =? 181)
        || ((223 <=? n) && (n <=? 246))
        || ((248 <=? n) && (n <=? 255)))%N.

(** [/[A-Z]/] on one code unit. *)
Definition in_A_Z (c : ascii) : bool :=
  let n := N_of_ascii c in ((65 <=? n) && (n <=? 90))%N.

(** Runtime values.  An object is given by its properties in enumeration
    order ([in], property reads and [JSON.stringify] see the same ones).
    The host enumerates array-index keys first, in ascending order, and
    treats an assignment to [__proto__] as a change of prototype: the
    assignment [set] below follows both.  The documents of the external
    converter are taken to have no such key at their top level, so that
    a spread keeps the order in which it is written.  A number is
    [(-1)^sign * m * 2^e], an infinity, or NaN. *)
Inductive Number : Type :=
| NaN
| Infinity (negative : bool)
| Finite (negative : bool) (m : N) (e : Z).

Inductive Value : Type :=
| Undefined
| Null
| Bool (b : bool)
| Num (n : Number)
| Str (s : string)
| BigInt (z : Z)
| Symbol (description : string)
| Object (props : list (string * Value))
| Function (props : list (string * Value)).

(** An object literal or [Record<string, unknown>]. *)
Definition Record := list (string * Value).

(** [typeof v] *)
Definition typeof (v : Value) : string :=
  match v with
  | Undefined => "undefined"
  | Null => "object"
  | Bool _ => "boolean"
  | Num _ => "number"
  | Str _ => "string"
  | BigInt _ => "bigint"
  | Symbol _ => "symbol"
  | Object _ => "object"
  | Function _ => "function"
  end.

(** ToBoolean: the falsy values are [undefined], [null], [false], [0],
    [-0], [NaN], [0n] and the empty string. *)
Definition truthy (v : Value) : bool :=
  match v with
  | Undefined | Null => false
  | Bool b => b
  | Num NaN => false
  | Num (Infinity _) => true
  | Num (Finite _ m _) => negb (m =? 0)%N
  | Str s => negb (String.eqb s EmptyString)
  | BigInt z => negb (z =? 0)%Z
  | Symbol _ | Object _ | Function _ => true
  end.

(** [k in r] on the property table of an object. *)
Definition has (k : string) (r : Record) : bool :=
  existsb (fun kv => String.eqb kv.1 k) r.

(** [r[k]] or [r.k] on the property table of an object. *)
Fixpoint get (k : string) (r : Record) : Value :=
  match r with
  | [] => Undefined
  | (k', v) :: r' => if String.eqb k' k then v else get k r'
  end.

(** The properties of a value that [in] and member access consult; the
    code below only applies them to values already known to be objects. *)
Definition props (v : Value) : Record :=
  match v with
  | Object r | Function r => r
  | _ => []
  end.

(** Rest of an object pattern [{ k, ...rest }]: every property but [k]. *)
Definition omit (k : string) (r : Record) : Record :=
  List.filter (fun kv => negb (String.eqb kv.1 k)) r.

(** The value of a decimal digit, and of a string of digits. *)
Definition digit (c : ascii) : option N :=
  let n := N_of_ascii c in
  if ((48 <=? n) && (n <=? 57))%N then Some (n - 48)%N else None.

Fixpoint digits (acc : N) (s : string) : option N :=
  match s with
  | EmptyString => Some acc
  | String c rest =>
      match digit c with
      | Some d => digits (10 * acc + d)%N rest
      | None => None
      end
  end.

(** A key is an array index when it is the canonical decimal form of an
    integer below [2^32 - 1]: [0], or digits that do not start with 0. *)
Definition array_index (k : string) : option N :=
  match k with
  | EmptyString => None
  | String c rest =>
      if Ascii.eqb c "0" && negb (String.eqb rest EmptyString) then None
      else match digits 0 k with
           | Some n => if (n <? 4294967295)%N then Some n else None
           | None => None
           end
  end.

(** The new value of an existing key, the key keeping its place. *)
Fixpoint replace (k : string) (v : Value) (r : Record) : Record :=
  match r with
  | [] => []
  | (k', v') :: r' =>
      if String.eqb k' k then (k, v) :: r' else (k', v') :: replace k v r'
  end.

(** A new array-index key [k], of value [i], goes after the array-index
    keys below it and before every other key. *)
Fixpoint insert_index (i : N) (k : string) (v : Value) (r : Record) : Record :=
  match r with
  | [] => [(k, v)]
  | (k', v') :: r' =>
      match array_index k' with
      | Some j =>
          if (j <? i)%N then (k', v') :: insert_index i k v r'
          else (k, v) :: r
      | None => (k, v) :: r
      end
  end.

(** [r[k] = v] on an object created by [{}].  The key [__proto__] runs
    the setter of [Object.prototype]: the prototype changes and no
    property is created.  An existing key keeps its place; a new
    array-index key goes among the array-index keys; any other new key
    goes last. *)
Definition set (k : string) (v : Value) (r : Record) : Record :=
  if String.eqb k "__proto__" then r
  else if has k r then replace k v r
  else match array_index k with
       | Some i => insert_index i k v r
       | None => r ++ [(k, v)]
       end.

End JS.

(** ** types.ts: the Schema Classifier *)

Module Types.
Import JS.

(** Type guard for Zod schemas: the Zod 4 structure [_zod.def] or the
    Zod 3 structure [_def]. *)
Definition isZodSchema (value : Value) : bool :=
  if negb (truthy value) || negb (String.eqb (typeof value) "object")
  then false
  else if has "_zod" (props value)
          && truthy (get "_zod" (props value))
          && String.eqb (typeof (get "_zod" (props value))) "object"
          && has "def" (props (get "_zod" (props value)))
  then true
  else if has "_def" (props value)
          && truthy (get "_def" (props value))
          && String.eqb (typeof (get "_def" (props value))) "object"
  then true
  else false.

End Types.

(** ** scanner.ts: the Directory Scanner's export filter, the Name
    Normalizer and the Schema Aggregator *)

Module Scanner.
Import JS Types.

Record SchemaExport : Type := { name : string; schema : Value }.

Record SchemaFile : Type := { filePath : string; schemas : list SchemaExport }.

(** [isLikelySchemaName]: some pattern of [/Schema$/], [/Zod$/],
    [/^z[A-Z]/], [/Validator$/] matches. *)
Definition isLikelySchemaName (name : string) : bool :=
  endsWith name "Schema"
  || endsWith name "Zod"
  || match name with
     | String "z" (String c _) => in_A_Z c
     | _ => false
     end
  || endsWith name "Validator".

Definition normalizeSchemaName (name : string) : string :=
  let normalized := name in
  let normalized :=
    if endsWith normalized "Schema" then slice normalized 0 (Some (-6)%Z)
    else if endsWith normalized "Zod" then slice normalized 0 (Some (-3)%Z)
    else normalized in
  let normalized :=
    if startsWith normalized "z"
       && (1 <? String.length normalized)%nat
       && match String.get 1 normalized with
          | Some c => fixed_by_toUpperCase c
          | None => false
          end
    then slice normalized 1 None
    else normalized in
  normalized.

(** The loop of [extractSchemasFromFile] over [Object.entries(module)];
    [module] is the export table of the imported file, in its iteration
    order. *)
Definition extractSchemasFromFile
    (module : list (string * Value)) (verbose : bool) : list SchemaExport :=
  fold_left
    (fun schemas '(exportName, exportValue) =>
       if String.eqb exportName "default" then schemas
       else if isZodSchema exportValue then
         if endsWith exportName "Schema"
            || endsWith exportName "Zod"
            || isLikelySchemaName exportName
         then (schemas ++ [{| name := normalizeSchemaName exportName;
                              schema := exportValue |}])%list
         else if verbose
         then (schemas ++ [{| name := exportName; schema := exportValue |}])%list
         else schemas
       else schemas)
    module [].

Section Flatten.

(** [path.basename(p, ext)] of the host's path library. *)
Variable basename : string -> string -> string.

(** The body of the inner loop, on the pair of the two mutable locals
    [schemas] and [seenNames]. *)
Definition flatten_visit (file : SchemaFile)
    (st : list SchemaExport * gset string) (schema0 : SchemaExport)
    : list SchemaExport * gset string :=
  let '(schemas, seenNames) := st in
  let name := schema0.(name) in
  let name :=
    if decide (name ∈ seenNames)
    then basename file.(filePath) ".ts" +:+ "_" +:+ name
    else name in
  if decide (name ∉ seenNames)
  then ((schemas ++ [{| name := name; schema := schema0.(schema) |}])%list,
        {[name]} ∪ seenNames)
  else (schemas, seenNames).

Definition flatten_loop (scanResults : list SchemaFile)
    (st : list SchemaExport * gset string)
    : list SchemaExport * gset string :=
  fold_left
    (fun st file => fold_left (flatten_visit file) file.(schemas) st)
    scanResults st.

Definition flattenSchemas (scanResults : list SchemaFile)
    : list SchemaExport :=
  (flatten_loop scanResults ([], ∅)).1.

End Flatten.

End Scanner.

(** ** index.ts: the Converter Adapter, the Output Writer and the driver

    An exception is a value of [Result]; [try]/[catch] is a case
    distinction on it.  A call of [fs.writeFile] or [fs.mkdir] resolves
    or rejects as the parameters [fs_writeFile] and [fs_mkdir] say; the
    writers record the calls of [fs.writeFile] they make, in order.
    [JSON.stringify] is only applied to documents of the converter and
    to the [$defs] wrapper, which are JSON data: it returns a string. *)

Module Cli.
Import JS Types Scanner.

(** What a [throw] carries: an [Error] built by [new Error(message)], or
    a value raised by the external converter, of which the code only
    takes the string conversion. *)
Inductive Exception : Type :=
| Error (message : string)
| Raised (asString : string).

(** [`${error}`] *)
Definition toString (error : Exception) : string :=
  match error with
  | Error message =>
      if String.eqb message EmptyString then "Error" else "Error: " +:+ message
  | Raised asString => asString
  end.

(** The outcome of a call that may throw. *)
Inductive Result (A : Type) : Type :=
| Ok (a : A)
| Throw (error : Exception).
Arguments Ok {A} a.
Arguments Throw {A} error.

(** [try { body } catch (error) { handler }] *)
Definition try_catch {A B : Type}
    (body : Result A) (k : A -> B) (handler : Exception -> B) : B :=
  match body with
  | Ok a => k a
  | Throw error => handler error
  end.

Notation "'try' x <- body 'in' k 'catch' e => h" :=
  (try_catch body (fun x => k) (fun e => h))
  (at level 10, x name, e name, body at level 200, k at level 200,
   h at level 200).

(** The double-quote character of the template literals. *)
Definition dquote : string := String (ascii_of_nat 34) EmptyString.

(** [getSchemaUrl]; [target] is the string given on the command line. *)
Definition getSchemaUrl (target : string) : string :=
  if String.eqb target "draft-7"
  then "http://json-schema.org/draft-07/schema#"
  else if String.eqb target "draft-2020-12"
  then "https://json-schema.org/draft/2020-12/schema"
  else "https://json-schema.org/draft/2020-12/schema".

(** One call [fs.writeFile(path, content, 'utf-8')]. *)
Record FileWrite : Type := { path : string; content : string }.

(** A call [run] makes to the file system: [fs.mkdir(dir, { recursive:
    true })] or [fs.writeFile]. *)
Inductive FsAction : Type :=
| Mkdir (dir : string)
| WriteFile (file : FileWrite).

(** The locals of [writeCombinedOutput] after its loop, and of
    [writeSeparateOutputs] together with the calls of [fs.writeFile] it
    has made. *)
Record CombinedLoop : Type := { defs : Record; combinedErrors : nat }.

Record SeparateLoop : Type :=
  { written : list FileWrite; successCount : nat; errorCount : nat }.

(** What [writeCombinedOutput] does: the one call of [fs.writeFile] it
    makes and the error count of its loop. *)
Record CombinedOutput : Type :=
  { combinedFile : FileWrite; combinedErrorCount : nat }.

Section Converter.

(** [z.toJSONSchema(schema, { target, unrepresentable: 'any',
    reused: 'ref', io: 'output' })], the external converter: it returns
    a JSON Schema object or throws.  The keys of the object are keywords
    of JSON Schema, none of them an array index, so an object literal
    that spreads it after a key lists that key first. *)
Variable toJSONSchema : Value -> string -> Result Record.

(** [path.basename(p, ext)], [path.join(dir, file)] and
    [JSON.stringify(value, null, indent)]; [indent = None] stands for
    the one-argument call. *)
Variable basename : string -> string -> string.
Variable path_join : string -> string -> string.
Variable JSON_stringify : Value -> option nat -> string.

(** Whether the call [fs.writeFile(path, content, 'utf-8')] resolves. *)
Variable fs_writeFile : string -> string -> Result unit.

(** [convertToJsonSchema].  The converter's result is an object, so
    the guards [typeof jsonSchema === 'object'] and
    [jsonSchema !== null] hold and only the [title] test decides. *)
Definition convertToJsonSchema
    (schema : Value) (name : string) (target : string) : Result Record :=
  try jsonSchema <- toJSONSchema schema target in
    if negb (has "title" jsonSchema)
    then Ok (("title", Str name) :: jsonSchema)
    else Ok jsonSchema
  catch error =>
    Throw (Error ("Failed to convert schema " +:+ dquote +:+ name
                  +:+ dquote +:+ ": " +:+ toString error)).

(** [format ? JSON.stringify(v, null, 2) : JSON.stringify(v)] *)
Definition serialize (format : bool) (v : Value) : string :=
  if format then JSON_stringify v (Some 2) else JSON_stringify v None.

(** Body of the loop of [writeCombinedOutput]. *)
Definition combined_visit (target : string)
    (st : CombinedLoop) (entry : SchemaExport) : CombinedLoop :=
  try jsonSchema <- convertToJsonSchema entry.(schema) entry.(name) target in
    let schemaWithoutMeta := omit "$schema" jsonSchema in
    {| defs := set entry.(name) (Object schemaWithoutMeta) st.(defs);
       combinedErrors := st.(combinedErrors) |}
  catch error =>
    {| defs := st.(defs); combinedErrors := S st.(combinedErrors) |}.

Definition combined_loop (target : string)
    (entries : list SchemaExport) (st : CombinedLoop) : CombinedLoop :=
  fold_left (combined_visit target) entries st.

(** The document [{ $schema: schemaUrl, $defs }]. *)
Definition combined_document (target : string) (defs : Record) : Record :=
  let schemaUrl := getSchemaUrl target in
  [("$schema", Str schemaUrl); ("$defs", Object defs)].

Definition writeCombinedOutput
    (schemas : list SchemaExport) (outputDir : string) (target : string)
    (format : bool) : CombinedOutput :=
  let st := combined_loop target schemas
              {| defs := []; combinedErrors := 0 |} in
  let combined := combined_document target st.(defs) in
  let outputPath := path_join outputDir "schemas.json" in
  let content := serialize format (Object combined) in
  {| combinedFile := {| path := outputPath; content := content |};
     combinedErrorCount := st.(combinedErrors) |}.

(** The document [finalSchema] of [writeSeparateOutputs]. *)
Definition finalSchema (target : string) (jsonSchema : Record) : Record :=
  let schemaUrl := getSchemaUrl target in
  if has "$schema" jsonSchema
  then jsonSchema
  else ("$schema", Str schemaUrl) :: jsonSchema.

(** Body of the loop of [writeSeparateOutputs].  One [try] covers the
    conversion and the write: when the write rejects, the call has been
    made, [successCount] is not reached and the [catch] counts an
    error. *)
Definition separate_visit (outputDir target : string) (format : bool)
    (st : SeparateLoop) (entry : SchemaExport) : SeparateLoop :=
  try jsonSchema <- convertToJsonSchema entry.(schema) entry.(name) target in
    let outputPath := path_join outputDir (entry.(name) +:+ ".json") in
    let content := serialize format (Object (finalSchema target jsonSchema)) in
    let calls := (st.(written)
                  ++ [{| path := outputPath; content := content |}])%list in
    try resolved <- fs_writeFile outputPath content in
      {| written := calls;
         successCount := S st.(successCount);
         errorCount := st.(errorCount) |}
    catch error =>
      {| written := calls;
         successCount := st.(successCount);
         errorCount := S st.(errorCount) |}
  catch error =>
    {| written := st.(written);
       successCount := st.(successCount);
       errorCount := S st.(errorCount) |}.

Definition separate_loop (outputDir target : string) (format : bool)
    (entries : list SchemaExport) (st : SeparateLoop) : SeparateLoop :=
  fold_left (separate_visit outputDir target format) entries st.

Definition writeSeparateOutputs
    (schemas : list SchemaExport) (outputDir : string) (target : string)
    (format : bool) : SeparateLoop :=
  separate_loop outputDir target format schemas
    {| written := []; successCount := 0; errorCount := 0 |}.

(** The part of [run] that follows [scanDirectory]: the calls it makes
    to the file system, given the scan results and the resolved output
    directory, when [fs.mkdir] resolves. *)
Definition run_from_scan
    (scanResults : list SchemaFile) (absoluteOutput : string)
    (combined : bool) (target : string) (format : bool) : list FsAction :=
  if (length scanResults =? 0)%nat then []
  else
    let allSchemas := flattenSchemas basename scanResults in
    Mkdir absoluteOutput ::
    (if combined
     then [WriteFile (writeCombinedOutput allSchemas absoluteOutput
                        target format).(combinedFile)]
     else map WriteFile (writeSeparateOutputs allSchemas absoluteOutput
                           target format).(written)).

End Converter.

End Cli.

(** ** scanner.ts and index.ts: the Directory Scanner's loop and [run]

    The module loader, the glob matcher, [path.resolve] and [fs.stat] are
    parameters.  The loader stands for the dynamic [import] of the file
    URL followed by [Object.entries]: it gives the export table of the
    module or the error the import throws. *)

Module Driver.
Import JS Types Scanner Cli.

(** [ScanOptions]; a field left out is [None]. *)
Module ScanOptions.
Record t : Type :=
  { verbose : option bool; pattern : option string;
    exclude : option (list string) }.
End ScanOptions.

(** [CLIOptions] as the command-line parser fills it in. *)
Module CLIOptions.
Record t : Type :=
  { output : string; combined : bool; separate : bool; target : string;
    format : bool; verbose : bool; pattern : string; exclude : list string }.
End CLIOptions.

(** What [fs.stat] does on a path: it answers, and [isDirectory()] is
    the flag, or it throws an error that carries a [code]. *)
Inductive StatOutcome : Type :=
| Stat (isDirectory : bool)
| StatThrows (code : string) (error : Exception).

Section Scan.

Variable import_module : string -> Result (list (string * Value)).
Variable glob : string -> string -> list string -> list string.
Variable path_resolve : string -> string.
Variable path_join : string -> string -> string.

(** [extractSchemasFromFile] with its import: an error of the import
    propagates. *)
Definition importSchemasFromFile (filePath : string) (verbose : bool)
    : Result (list SchemaExport) :=
  match import_module filePath with
  | Ok module => Ok (extractSchemasFromFile module verbose)
  | Throw error => Throw error
  end.

(** Body of the loop of [scanDirectory] over the matched files. *)
Definition scan_visit (absoluteDir : string) (verbose : bool)
    (results : list SchemaFile) (file : string) : list SchemaFile :=
  let filePath := path_join absoluteDir file in
  try schemas <- importSchemasFromFile filePath verbose in
    if (0 <? length schemas)%nat
    then results ++ [{| filePath := filePath; schemas := schemas |}]
    else results
  catch error => results.

(** [scanDirectory]; [glob pattern cwd ignore] is the call
    [glob(pattern, { cwd, ignore, nodir: true, absolute: false })]. *)
Definition scanDirectory (inputDir : string) (options : ScanOptions.t)
    : list SchemaFile :=
  let verbose := default false options.(ScanOptions.verbose) in
  let pattern := default "**/*.ts" options.(ScanOptions.pattern) in
  let exclude :=
    default ["**/*.test.ts"; "**/*.spec.ts"] options.(ScanOptions.exclude) in
  let absoluteDir := path_resolve inputDir in
  let files := glob pattern absoluteDir exclude in
  fold_left (scan_visit absoluteDir verbose) files [].

End Scan.

Section Run.

Variable toJSONSchema : Value -> string -> Result Record.
Variable basename : string -> string -> string.
Variable path_join : string -> string -> string.
Variable JSON_stringify : Value -> option nat -> string.
Variable fs_writeFile : string -> string -> Result unit.
Variable fs_mkdir : string -> Result unit.
Variable import_module : string -> Result (list (string * Value)).
Variable glob : string -> string -> list string -> Result (list string).
Variable path_resolve : string -> string.
Variable stat : string -> StatOutcome.

(** The check of the input directory in [run].  The [throw] for a path
    that is not a directory sits inside the [try], so the [catch] sees
    it too; its error has no [code] and is thrown again as it is. *)
Definition check_input (absoluteInput : string) : Result unit :=
  let attempt : Result unit * option string :=
    match stat absoluteInput with
    | Stat isDirectory =>
        if negb isDirectory
        then (Throw (Error ("Input path is not a directory: "
                            +:+ absoluteInput)), None)
        else (Ok tt, None)
    | StatThrows code error => (Throw error, Some code)
    end in
  match attempt with
  | (Ok tt, _) => Ok tt
  | (Throw error, code) =>
      if bool_decide (code = Some "ENOENT")
      then Throw (Error ("Input directory does not exist: "
                         +:+ absoluteInput))
      else Throw error
  end.

(** [scanDirectory] with a matcher that can reject.  The call of [glob]
    is awaited outside any [try], so its error is the error of the scan;
    on the files the matcher answers, the scan is [scanDirectory]. *)
Definition awaitScanDirectory (inputDir : string) (options : ScanOptions.t)
    : Result (list SchemaFile) :=
  let pattern := default "**/*.ts" options.(ScanOptions.pattern) in
  let exclude :=
    default ["**/*.test.ts"; "**/*.spec.ts"] options.(ScanOptions.exclude) in
  match glob pattern (path_resolve inputDir) exclude with
  | Throw error => Throw error
  | Ok files =>
      Ok (scanDirectory import_module (fun _ _ _ => files) path_resolve
            path_join inputDir options)
  end.

(** [run]: the calls to the file system it has made when it returns, or
    the error it throws.  Outside a [try], a call that rejects ends
    [run] with its error: that is so for the scan when the matcher
    rejects, for [fs.mkdir] and for the write of combined mode, while
    the writes of separate mode are caught in the loop. *)
Definition run (inputDir : string) (options : CLIOptions.t)
    : Result (list FsAction) :=
  let absoluteInput := path_resolve inputDir in
  let absoluteOutput := path_resolve options.(CLIOptions.output) in
  match check_input absoluteInput with
  | Throw error => Throw error
  | Ok _ =>
      match
        awaitScanDirectory absoluteInput
          {| ScanOptions.verbose := Some options.(CLIOptions.verbose);
             ScanOptions.pattern := Some options.(CLIOptions.pattern);
             ScanOptions.exclude := Some options.(CLIOptions.exclude) |}
      with
      | Throw error => Throw error
      | Ok scanResults =>
          let calls :=
            run_from_scan toJSONSchema basename path_join JSON_stringify
              fs_writeFile scanResults absoluteOutput
              options.(CLIOptions.combined) options.(CLIOptions.target)
              options.(CLIOptions.format) in
          if (length scanResults =? 0)%nat then Ok calls
          else
            match fs_mkdir absoluteOutput with
            | Throw error => Throw error
            | Ok _ =>
                if options.(CLIOptions.combined) then
                  let file :=
                    (writeCombinedOutput toJSONSchema path_join JSON_stringify
                       (flattenSchemas basename scanResults) absoluteOutput
                       options.(CLIOptions.target)
                       options.(CLIOptions.format))
                    .(combinedFile) in
                  match fs_writeFile file.(path) file.(content) with
                  | Throw error => Throw error
                  | Ok _ => Ok calls
                  end
                else Ok calls
            end
      end
  end.

(** The exit code the action handler leaves: [process.exit(1)] in its
    [catch], a normal end otherwise. *)
Definition exit_code (inputDir : string) (options : CLIOptions.t) : nat :=
  match run inputDir options with
  | Ok _ => 0
  | Throw _ => 1
  end.

End Run.

End Driver.

Import JS Types Scanner Cli.

(** ** The Aggregator as the specification words it *)

Module Spec.

Section Aggregate.

Variable basename : string -> string -> string.

(** The collision name [{fileBaseName}_{originalName}]. *)
Definition rewritten (filePath : string) (e : SchemaExport) : SchemaExport :=
  {| name := basename filePath ".ts" +:+ "_" +:+ e.(name);
     schema := e.(schema) |}.

(** One pass over the exports in encounter order, each paired with the
    path of its file, against the set of names already emitted: an
    unseen name is emitted as it is; a seen name is rewritten and, if
    the rewritten name is unseen, emitted under it; otherwise the
    export is dropped. *)
Fixpoint aggregate (emitted : gset string)
    (exports : list (string * SchemaExport)) : list SchemaExport :=
  match exports with
  | [] => []
  | (filePath, e) :: rest =>
      if decide (e.(name) ∈ emitted) then
        let e' := rewritten filePath e in
        if decide (e'.(name) ∈ emitted) then aggregate emitted rest
        else e' :: aggregate ({[e'.(name)]} ∪ emitted) rest
      else e :: aggregate ({[e.(name)]} ∪ emitted) rest
  end.

(** The emitted set once the pass is over. *)
Fixpoint emitted_after (emitted : gset string)
    (exports : list (string * SchemaExport)) : gset string :=
  match exports with
  | [] => emitted
  | (filePath, e) :: rest =>
      if decide (e.(name) ∈ emitted) then
        let e' := rewritten filePath e in
        if decide (e'.(name) ∈ emitted) then emitted_after emitted rest
        else emitted_after ({[e'.(name)]} ∪ emitted) rest
      else emitted_after ({[e.(name)]} ∪ emitted) rest
  end.

(** Files in input order, exports within each file in input order. *)
Definition encounter_order (files : list SchemaFile)
    : list (string * SchemaExport) :=
  flat_map (fun file => map (pair file.(filePath)) file.(schemas)) files.

Definition flatten (files : list SchemaFile) : list SchemaExport :=
  aggregate ∅ (encounter_order files).

(** For each export in encounter order, the two forms under which it
    can be emitted: as it is, then rewritten. *)
Definition candidates (files : list SchemaFile) : list SchemaExport :=
  flat_map (fun '(filePath, e) => [e; rewritten filePath e])
           (encounter_order files).

End Aggregate.

(** A non-null structured value: [typeof] says object and it is not
    [null]. *)
Definition structured (v : Value) : Prop :=
  typeof v = "object" /\ v <> Null.

End Spec.

(** ** Vocabulary of the proofs *)

Module Steps.

(** The two steps of [normalizeSchemaName]. *)
Definition strip_suffix (s : string) : string :=
  if endsWith s "Schema" then slice s 0 (Some (-6)%Z)
  else if endsWith s "Zod" then slice s 0 (Some (-3)%Z)
  else s.

Definition strip_z (s : string) : string :=
  match s with
  | String a (String c rest) =>
      if Ascii.eqb a "z" && fixed_by_toUpperCase c then String c rest else s
  | _ => s
  end.

(** The message of the error [convertToJsonSchema] throws for [name]. *)
Definition failure_message (name : string) (error : Exception) : string :=
  "Failed to convert schema " +:+ dquote +:+ name +:+ dquote +:+ ": "
  +:+ toString error.

(** Whether a call of [fs.writeFile] resolves. *)
Definition write_ok (fs_writeFile : string -> string -> Result unit)
    (file : FileWrite) : bool :=
  match fs_writeFile file.(path) file.(content) with
  | Ok _ => true
  | Throw _ => false
  end.

Section Writers.

Variable toJSONSchema : Value -> string -> Result Record.
Variable path_join : string -> string -> string.
Variable JSON_stringify : Value -> option nat -> string.

(** What one schema contributes to each component of the writers' state:
    the call of [fs.writeFile] of separate mode, the conversion error
    tallied, the [$defs] entry. *)
Definition separate_file (outputDir target : string) (format : bool)
    (entry : SchemaExport) : option FileWrite :=
  match convertToJsonSchema toJSONSchema entry.(schema) entry.(name) target with
  | Ok jsonSchema =>
      Some {| path := path_join outputDir (entry.(name) +:+ ".json");
              content := serialize JSON_stringify format
                           (Object (finalSchema target jsonSchema)) |}
  | Throw _ => None
  end.

Definition conversion_error (target : string) (entry : SchemaExport)
    : option Exception :=
  match convertToJsonSchema toJSONSchema entry.(schema) entry.(name) target with
  | Ok _ => None
  | Throw error => Some error
  end.

Definition defs_visit (target : string) (defs : Record)
    (entry : SchemaExport) : Record :=
  match convertToJsonSchema toJSONSchema entry.(schema) entry.(name) target with
  | Ok jsonSchema => set entry.(name) (Object (omit "$schema" jsonSchema)) defs
  | Throw _ => defs
  end.

End Writers.

End Steps.

(** ** Stand-ins for the external collaborators, to run the code *)

Module Demo.

(** A model of [path.basename(p, ext)] for absolute POSIX paths that do
    not end in a slash: the text after the last slash, without [ext] when
    it ends in [ext] and is longer. *)
Fixpoint last_segment (current p : string) : string :=
  match p with
  | EmptyString => current
  | String c rest =>
      if Ascii.eqb c "/" then last_segment EmptyString rest
      else last_segment (current +:+ String c EmptyString) rest
  end.

Definition posix_basename (p ext : string) : string :=
  let segment := last_segment EmptyString p in
  if endsWith segment ext && (String.length ext <? String.length segment)%nat
  then slice segment 0 (Some (- Z.of_nat (String.length ext))%Z)
  else segment.

Definition example_schema : Value :=
  Object [("_zod", Object [("def", Object [("type", Str "object")])])].

Definition export_of (exportName : string) : list SchemaExport :=
  extractSchemasFromFile [(exportName, example_schema)] false.

(** A converter for the examples: a schema converts to a one-key document,
    anything else is refused. *)
Definition demo_toJSONSchema (schema : Value) (target : string)
    : Result Record :=
  if isZodSchema schema then Ok [("type", Str "object")]
  else Throw (Raised "TypeError: not a schema").

Definition demo_join (dir file : string) : string := dir +:+ "/" +:+ file.

(** A file system on which one path cannot be written. *)
Definition demo_writeFile (path content : string) : Result unit :=
  if String.eqb path "/out/Locked.json"
  then Throw (Raised "Error: EISDIR: illegal operation on a directory")
  else Ok tt.

Definition demo_mkdir (dir : string) : Result unit := Ok tt.

(** A stand-in for the serialiser that lists the top-level keys. *)
Definition demo_stringify (v : Value) (indent : option nat) : string :=
  String.concat "," (map fst (props v)).

Definition user_export : SchemaExport :=
  {| name := "User"; schema := example_schema |}.

Definition bad_export : SchemaExport := {| name := "Bad"; schema := Null |}.

Definition one_file (entries : list SchemaExport) : list SchemaFile :=
  [{| filePath := "/src/models.ts"; schemas := entries |}].

End Demo.

(** ** Vocabulary of the further properties *)

Module ScanSteps.

(** What one entry of the export table contributes to the exports
    collected from a file. *)
Definition collect (verbose : bool) (entry : string * Value)
    : option SchemaExport :=
  if String.eqb entry.1 "default" then None
  else if isZodSchema entry.2 then
    if isLikelySchemaName entry.1
    then Some {| name := normalizeSchemaName entry.1; schema := entry.2 |}
    else if verbose
    then Some {| name := entry.1; schema := entry.2 |}
    else None
  else None.

(** Whether a module path ends up in the scan result, and with what. *)
Definition scan_file
    (import_module : string -> Result (list (string * Value)))
    (verbose : bool) (filePath : string) : option SchemaFile :=
  match import_module filePath with
  | Ok module =>
      if (0 <? length (extractSchemasFromFile module verbose))%nat
      then Some {| filePath := filePath;
                   schemas := extractSchemasFromFile module verbose |}
      else None
  | Throw _ => None
  end.

(** The [$defs] entry of a schema, when its conversion succeeds. *)
Definition defs_entry (toJSONSchema : Value -> string -> Result Record)
    (target : string) (entry : SchemaExport) : option (string * Value) :=
  match convertToJsonSchema toJSONSchema entry.(schema) entry.(name) target with
  | Ok jsonSchema => Some (entry.(name), Object (omit "$schema" jsonSchema))
  | Throw _ => None
  end.

(** A name that is a key of [$defs] like any other: neither
    [__proto__], which an assignment does not store, nor an array index,
    which is listed before the other keys. *)
Definition ordinary_key (k : string) : bool :=
  negb (String.eqb k "__proto__")
  && match array_index k with Some _ => false | None => true end.

(** Whether the import of a module succeeds. *)
Definition import_ok
    (import_module : string -> Result (list (string * Value)))
    (filePath : string) : bool :=
  match import_module filePath with Ok _ => true | Throw _ => false end.

(** All the exports of a scan, in encounter order. *)
Definition all_exports (files : list SchemaFile) : list SchemaExport :=
  flat_map schemas files.

(** The files the glob matcher returns for a scan, as paths. *)
Definition matched_paths
    (glob : string -> string -> list string -> list string)
    (path_resolve : string -> string)
    (path_join : string -> string -> string)
    (inputDir : string) (options : Driver.ScanOptions.t) : list string :=
  map (path_join (path_resolve inputDir))
      (glob (default "**/*.ts" options.(Driver.ScanOptions.pattern))
            (path_resolve inputDir)
            (default ["**/*.test.ts"; "**/*.spec.ts"]
                     options.(Driver.ScanOptions.exclude))).

End ScanSteps.

(** ** Stand-ins for the module loader and the file system *)

Module DemoDriver.
Import Driver Demo.

Definition demo_import (filePath : string)
    : Result (list (string * Value)) :=
  if String.eqb filePath "/src/user.ts"
  then Ok [("UserSchema", example_schema); ("default", example_schema);
           ("helper", Str "text")]
  else if String.eqb filePath "/src/broken.ts"
  then Throw (Raised "SyntaxError: Unexpected token")
  else Ok [].

Definition demo_glob (pattern cwd : string) (ignore : list string)
    : list string :=
  ["user.ts"; "broken.ts"; "empty.ts"].

(** The matcher of [run], which resolves to the files of [demo_glob]. *)
Definition demo_matcher (pattern cwd : string) (ignore : list string)
    : Result (list string) :=
  Ok (demo_glob pattern cwd ignore).

Definition demo_resolve (p : string) : string := p.

Definition demo_stat (p : string) : StatOutcome :=
  if String.eqb p "/src" then Stat true
  else if String.eqb p "/src/user.ts" then Stat false
  else if String.eqb p "/locked" then
    StatThrows "EACCES" (Raised "Error: EACCES: permission denied")
  else StatThrows "ENOENT" (Raised "Error: ENOENT: no such file or directory").

(** A loader on which every import fails. *)
Definition failing_import (filePath : string)
    : Result (list (string * Value)) :=
  Throw (Raised "Error: Cannot find module").

Definition no_options : ScanOptions.t :=
  {| ScanOptions.verbose := None; ScanOptions.pattern := None;
     ScanOptions.exclude := None |}.

Definition demo_options : CLIOptions.t :=
  {| CLIOptions.output := "/out"; CLIOptions.combined := false;
     CLIOptions.separate := true; CLIOptions.target := "draft-7";
     CLIOptions.format := true; CLIOptions.verbose := false;
     CLIOptions.pattern := "**/*.ts";
     CLIOptions.exclude := ["**/*.test.ts"; "**/*.spec.ts"] |}.

End DemoDriver.

Import Steps Demo.

(** ** The Name Normalizer *)

Section NormalizerFacts.

Lemma substring_all (s : string) : substring 0 (String.length s) s = s.
Proof. induction s as [|a s IH]; simpl; [done | by rewrite IH]. Qed.

Lemma slice_tail (a : ascii) (s : string) : slice (String a s) 1 None = s.
Proof.
  unfold slice, relative_index.
  change (String.length (String a s)) with (S (String.length s)).
  assert ((1 <? 0)%Z = false) as -> by done.
  rewrite Z.min_l by lia.
  replace (Z.to_nat (Z.of_nat (S (String.length s)) - 1))
    with (String.length s) by lia.
  change (Z.to_nat 1) with 1%nat. simpl. apply substring_all.
Qed.

Lemma prefix_z (a : ascii) (s : string) :
  String.prefix "z" (String a s) = Ascii.eqb a "z".
Proof.
  change (String.prefix "z" (String a s))
    with (if ascii_dec "z" a then String.prefix EmptyString s else false).
  destruct (ascii_dec "z" a) as [<-|Hne].
  - by destruct s.
  - symmetry. apply Ascii.eqb_neq. congruence.
Qed.

Lemma normalizeSchemaName_steps (name : string) :
  normalizeSchemaName name = strip_z (strip_suffix name).
Proof.
  unfold normalizeSchemaName. fold (strip_suffix name).
  generalize (strip_suffix name). intros s.
  unfold startsWith.
  destruct s as [|a [|c rest]]; [done | |].
  - rewrite prefix_z. simpl. by rewrite andb_false_r.
  - rewrite prefix_z, slice_tail. simpl. by rewrite andb_true_r.
Qed.

Lemma z_not_fixed (c : ascii) :
  fixed_by_toUpperCase c = true -> Ascii.eqb c "z" = false.
Proof.
  intros Hc. apply Ascii.eqb_neq. intros ->. by vm_compute in Hc.
Qed.

Lemma strip_z_idempotent (s : string) : strip_z (strip_z s) = strip_z s.
Proof.
  destruct s as [|a [|c rest]]; [done | done |].
  simpl. destruct (Ascii.eqb a "z" && fixed_by_toUpperCase c) eqn:E.
  - apply andb_true_iff in E as [_ Hc].
    destruct rest as [|d rest]; [done|].
    simpl. by rewrite (z_not_fixed c Hc).
  - simpl. by rewrite E.
Qed.

Lemma strip_suffix_none (s : string) :
  endsWith s "Schema" = false -> endsWith s "Zod" = false ->
  strip_suffix s = s.
Proof. intros H1 H2. unfold strip_suffix. by rewrite H1, H2. Qed.

Lemma length_append (s1 s2 : string) :
  String.length (s1 +:+ s2) = String.length s1 + String.length s2.
Proof. induction s1 as [|a s1 IH]; simpl; [done | by rewrite IH]. Qed.

Lemma substring_append_l (s1 s2 : string) :
  substring 0 (String.length s1) (s1 +:+ s2) = s1.
Proof. induction s1 as [|a s1 IH]; simpl; [by destruct s2 | by rewrite IH]. Qed.

Lemma substring_append_r (s1 s2 : string) :
  substring (String.length s1) (String.length s2) (s1 +:+ s2) = s2.
Proof. induction s1 as [|a s1 IH]; simpl; [apply substring_all | done]. Qed.

Lemma substring_split (s : string) (n : nat) :
  n <= String.length s ->
  s = substring 0 n s +:+ substring n (String.length s - n) s.
Proof.
  revert n. induction s as [|a s IH]; intros [|n] Hn; simpl in *;
    try lia; try done.
  - by rewrite substring_all.
  - transitivity
      (String a (substring 0 n s +:+ substring n (String.length s - n) s));
      [f_equal; apply IH; lia | reflexivity].
Qed.

Lemma endsWith_append (s p : string) : endsWith (s +:+ p) p = true.
Proof.
  unfold endsWith. rewrite length_append.
  replace (String.length s + String.length p - String.length p)
    with (String.length s) by lia.
  rewrite substring_append_r, String.eqb_refl.
  apply andb_true_iff. split; [|done]. apply Nat.leb_le. lia.
Qed.

Lemma endsWith_split (s p : string) :
  endsWith s p = true ->
  s = substring 0 (String.length s - String.length p) s +:+ p.
Proof.
  unfold endsWith. intros [Hle Heq]%andb_true_iff.
  apply Nat.leb_le in Hle. apply String.eqb_eq in Heq.
  rewrite (substring_split s (String.length s - String.length p)) at 1
    by lia.
  replace (String.length s - (String.length s - String.length p))
    with (String.length p) by lia.
  by rewrite Heq.
Qed.

(** [(s + p).slice(0, -p.length)] gives [s] back. *)
Lemma slice_append (s p : string) :
  p <> EmptyString ->
  slice (s +:+ p) 0 (Some (- Z.of_nat (String.length p))%Z) = s.
Proof.
  intros Hp. assert (0 < String.length p) by (destruct p; simpl; [done|lia]).
  unfold slice, relative_index. rewrite length_append.
  assert ((0 <? 0)%Z = false) as -> by done.
  assert ((- Z.of_nat (String.length p) <? 0)%Z = true) as ->
    by (apply Z.ltb_lt; lia).
  rewrite Z.min_l, Z.max_l by lia.
  change (Z.to_nat 0) with 0%nat.
  replace (Z.to_nat _) with (String.length s) by lia.
  apply substring_append_l.
Qed.

(** The last code unit of a string that ends in [Schema] is [a], and of
    one that ends in [Zod] is [d]: no string ends in both. *)
Lemma endsWith_last (s p : string) (k : nat) (c : ascii) :
  endsWith s p = true -> String.length p = S k -> String.get k p = Some c ->
  String.get (String.length s - 1) s = Some c.
Proof.
  unfold endsWith. intros [Hle Heq]%andb_true_iff Hlen Hc.
  apply Nat.leb_le in Hle. apply String.eqb_eq in Heq.
  rewrite <- Hc, <- Heq at 1. rewrite substring_correct1 by lia.
  f_equal. lia.
Qed.

Lemma endsWith_Schema_Zod (s : string) :
  endsWith s "Schema" = true -> endsWith s "Zod" = false.
Proof.
  intros HSchema. destruct (endsWith s "Zod") eqn:HZod; [|done].
  pose proof (endsWith_last s "Schema" 5 "a" HSchema eq_refl eq_refl) as Ha.
  pose proof (endsWith_last s "Zod" 2 "d" HZod eq_refl eq_refl) as Hd.
  congruence.
Qed.

Lemma length_strip_z (s : string) :
  String.length (strip_z s) <= String.length s.
Proof.
  destruct s as [|a [|c rest]]; [done | done |].
  simpl. destruct (_ && _); simpl; lia.
Qed.

End NormalizerFacts.

(** The worked examples of the Name Normalizer. *)
Example normalizeSchemaName_examples :
  normalizeSchemaName "UserSchema" = "User"
  /\ normalizeSchemaName "ProductZod" = "Product"
  /\ normalizeSchemaName "zAddress" = "Address"
  /\ normalizeSchemaName "Config" = "Config".
Proof. repeat split; reflexivity. Qed.

(** A lowercase letter after the [z] keeps the prefix, as does a lone [z]. *)
Example normalizeSchemaName_keeps_z :
  normalizeSchemaName "zoo" = "zoo"
  /\ normalizeSchemaName "z" = "z"
  /\ normalizeSchemaName "zZod" = "z".
Proof. repeat split; reflexivity. Qed.

(** The Name Normalizer in closed form: one suffix is taken off, [Schema]
    or [Zod], then a leading [z] goes when the character after it is
    left alone by [toUpperCase]. *)
Lemma normalizeSchemaName_Schema (s : string) :
  normalizeSchemaName (s +:+ "Schema") = strip_z s.
Proof.
  rewrite normalizeSchemaName_steps. unfold strip_suffix.
  rewrite (endsWith_append s "Schema").
  f_equal. by apply (slice_append s "Schema").
Qed.

Lemma normalizeSchemaName_Zod (s : string) :
  normalizeSchemaName (s +:+ "Zod") = strip_z s.
Proof.
  rewrite normalizeSchemaName_steps. unfold strip_suffix.
  destruct (endsWith (s +:+ "Zod") "Schema") eqn:HSchema.
  - apply endsWith_Schema_Zod in HSchema.
    by rewrite (endsWith_append s "Zod") in HSchema.
  - rewrite (endsWith_append s "Zod").
    f_equal. by apply (slice_append s "Zod").
Qed.

Lemma normalizeSchemaName_no_suffix (s : string) :
  endsWith s "Schema" = false -> endsWith s "Zod" = false ->
  normalizeSchemaName s = strip_z s.
Proof.
  intros. rewrite normalizeSchemaName_steps. by rewrite strip_suffix_none.
Qed.

Lemma strip_z_z (c : ascii) (rest : string) :
  strip_z (String "z" (String c rest))
  = if fixed_by_toUpperCase c then String c rest
    else String "z" (String c rest).
Proof. reflexivity. Qed.

Lemma strip_z_other (a : ascii) (rest : string) :
  a <> "z"%char -> strip_z (String a rest) = String a rest.
Proof.
  intros Ha%Ascii.eqb_neq. destruct rest as [|c rest]; [done|].
  simpl. by rewrite Ha.
Qed.

(** Only one suffix goes: [Schema] in front of [Zod] stays. *)
Example normalizeSchemaName_one_suffix :
  normalizeSchemaName "UserSchemaZod" = "UserSchema"
  /\ normalizeSchemaName "UserZodSchema" = "UserZod".
Proof. split; reflexivity. Qed.

(** C4 (the code departs from the specification).  The leading [z] is
    dropped whenever the next character is left alone by [toUpperCase],
    which holds for digits, [_] and [$] as well as for uppercase
    letters: the export [z_idSchema] is named [_id] and [z1Zod] is named
    [1], although neither has an uppercase letter after the [z], and the
    naming pattern [/^z[A-Z]/] of [isLikelySchemaName] matches neither
    [z_id] nor [z1]. *)
Theorem normalizeSchemaName_drops_z_before_non_letter :
  normalizeSchemaName "z_idSchema" = "_id"
  /\ normalizeSchemaName "z1Zod" = "1"
  /\ in_A_Z "_" = false /\ in_A_Z "1" = false
  /\ fixed_by_toUpperCase "_" = true /\ fixed_by_toUpperCase "1" = true.
Proof. repeat split; reflexivity. Qed.

(** C5, counterexample: a second pass strips a second suffix, so
    normalising [UserSchemaSchema] twice gives [User] while once gives
    [UserSchema]. *)
Lemma normalizeSchemaName_not_idempotent :
  normalizeSchemaName (normalizeSchemaName "UserSchemaSchema")
  <> normalizeSchemaName "UserSchemaSchema".
Proof. vm_compute. discriminate. Qed.

(** C5, amended: when the normalised name no longer ends in [Schema] or
    [Zod], normalising it again changes nothing. *)
Theorem normalizeSchemaName_idempotent_without_suffix (x : string) :
  endsWith (normalizeSchemaName x) "Schema" = false ->
  endsWith (normalizeSchemaName x) "Zod" = false ->
  normalizeSchemaName (normalizeSchemaName x) = normalizeSchemaName x.
Proof.
  intros HSchema HZod.
  rewrite (normalizeSchemaName_steps (normalizeSchemaName x)).
  rewrite strip_suffix_none by assumption.
  rewrite normalizeSchemaName_steps. apply strip_z_idempotent.
Qed.

(** The condition is the exact one: a normalised name that still ends
    in a suffix gets shorter on the second pass. *)
Lemma normalizeSchemaName_idempotent_iff (x : string) :
  normalizeSchemaName (normalizeSchemaName x) = normalizeSchemaName x
  <-> endsWith (normalizeSchemaName x) "Schema" = false
      /\ endsWith (normalizeSchemaName x) "Zod" = false.
Proof.
  split.
  - intros Hidem. set (r := normalizeSchemaName x) in *.
    assert (forall p k, String.length p = S k -> endsWith r p = true ->
            normalizeSchemaName r = strip_z
              (substring 0 (String.length r - String.length p) r) ->
            False) as Hshorter.
    { intros p k Hp Hends Hnorm.
      pose proof (endsWith_split r p Hends) as Hsplit.
      pose proof (length_strip_z
                    (substring 0 (String.length r - String.length p) r)) as Hz.
      rewrite <- Hnorm, Hidem in Hz.
      apply (f_equal String.length) in Hsplit.
      rewrite length_append in Hsplit. lia. }
    split.
    + destruct (endsWith r "Schema") eqn:E; [exfalso|done].
      apply (Hshorter "Schema" 5 eq_refl E).
      rewrite (endsWith_split r "Schema" E) at 1.
      apply normalizeSchemaName_Schema.
    + destruct (endsWith r "Zod") eqn:E; [exfalso|done].
      apply (Hshorter "Zod" 2 eq_refl E).
      rewrite (endsWith_split r "Zod" E) at 1.
      apply normalizeSchemaName_Zod.
  - intros [HSchema HZod].
    rewrite (normalizeSchemaName_steps (normalizeSchemaName x)).
    rewrite strip_suffix_none by assumption.
    rewrite normalizeSchemaName_steps. apply strip_z_idempotent.
Qed.

Lemma normalizeSchemaName_idempotent_without_suffix_witness :
  endsWith (normalizeSchemaName "UserSchema") "Schema" = false
  /\ endsWith (normalizeSchemaName "UserSchema") "Zod" = false
  /\ normalizeSchemaName (normalizeSchemaName "UserSchema")
     = normalizeSchemaName "UserSchema".
Proof.
  split; [reflexivity | split; [reflexivity |]].
  apply (normalizeSchemaName_idempotent_without_suffix "UserSchema");
    reflexivity.
Defined.

(** ** The Schema Classifier *)

Section ClassifierFacts.

Import Spec.

(** The test [v && typeof v === 'object'] singles out the non-null
    structured values. *)
Lemma truthy_object_structured (v : Value) :
  truthy v && String.eqb (typeof v) "object" = true <-> structured v.
Proof.
  unfold structured. split.
  - intros [Ht Hty]%andb_true_iff. apply String.eqb_eq in Hty.
    split; [done|]. intros ->. discriminate.
  - intros [Hty Hnull].
    destruct v; try discriminate; try done.
Qed.

Lemma structured_Object (v : Value) :
  structured v <-> exists r, v = Object r.
Proof.
  unfold structured. split.
  - intros [Hty Hnull]. destruct v; try discriminate; try done. eauto.
  - intros [r ->]. split; [reflexivity | discriminate].
Qed.

Lemma isZodSchema_Object (r : Record) :
  isZodSchema (Object r)
  = (has "_zod" r
     && truthy (get "_zod" r)
     && String.eqb (typeof (get "_zod" r)) "object"
     && has "def" (props (get "_zod" r)))
    || (has "_def" r
        && truthy (get "_def" r)
        && String.eqb (typeof (get "_def" r)) "object").
Proof.
  unfold isZodSchema. cbn [truthy typeof props negb orb].
  change (String.eqb "object" "object") with true. cbn [negb].
  by repeat case_match.
Qed.

End ClassifierFacts.

(** C3.  [isZodSchema] answers true exactly for a non-null structured
    value that has a [_zod] property which is a non-null structured
    value with a [def] property, or a [_def] property which is a
    non-null structured value.  Hence it accepts every value shaped
    [{_zod: {def: ...}}] or [{_def: {...}}], and rejects [null],
    [undefined], the primitives, and every object that has neither
    marker. *)
Theorem isZodSchema_spec :
  (forall v : Value,
     isZodSchema v = true <->
     Spec.structured v
     /\ ((has "_zod" (props v) = true
          /\ Spec.structured (get "_zod" (props v))
          /\ has "def" (props (get "_zod" (props v))) = true)
         \/ (has "_def" (props v) = true
             /\ Spec.structured (get "_def" (props v)))))
  /\ (forall (d : Value) (inner outer : Record),
        isZodSchema
          (Object (("_zod", Object (("def", d) :: inner)) :: outer)) = true)
  /\ (forall inner outer : Record,
        isZodSchema (Object (("_def", Object inner) :: outer)) = true)
  /\ isZodSchema Null = false
  /\ isZodSchema Undefined = false
  /\ (forall b, isZodSchema (Bool b) = false)
  /\ (forall n, isZodSchema (Num n) = false)
  /\ (forall s, isZodSchema (Str s) = false)
  /\ (forall z, isZodSchema (BigInt z) = false)
  /\ (forall d, isZodSchema (Symbol d) = false)
  /\ (forall r : Record,
        has "_zod" r = false -> has "_def" r = false ->
        isZodSchema (Object r) = false).
Proof.
  repeat match goal with |- _ /\ _ => split end.
  - intros v. destruct v as [| |b|n|s|z|d|r|r];
      try (split; [discriminate | by intros [[? ?] _]]).
    + split; [by destruct b | by intros [[? ?] _]].
    + split; [by destruct n as [| |? [|?] ?] | by intros [[? ?] _]].
    + split; [by destruct s | by intros [[? ?] _]].
    + split; [by destruct z | by intros [[? ?] _]].
    + rewrite isZodSchema_Object. cbn [props].
      rewrite orb_true_iff, !andb_true_iff.
      rewrite <- !(truthy_object_structured (get _ r)), !andb_true_iff.
      split.
      * intros H. split; [split; [reflexivity | discriminate]|]. tauto.
      * intros [_ H]. tauto.
  - intros d inner outer. reflexivity.
  - intros inner outer. rewrite isZodSchema_Object.
    apply orb_true_iff. right. reflexivity.
  - reflexivity.
  - reflexivity.
  - intros b. by destruct b.
  - intros n. by destruct n as [| |? [|?] ?].
  - intros s. by destruct s.
  - intros z. by destruct z.
  - intros d. reflexivity.
  - intros r Hzod Hdef. rewrite isZodSchema_Object.
    by rewrite Hzod, Hdef.
Qed.

(** A function carrying the markers is not a schema: [typeof] says
    [function]. *)
Example isZodSchema_function :
  isZodSchema (Function [("_def", Object [])]) = false.
Proof. reflexivity. Qed.

Lemma isZodSchema_spec_witness :
  has "_zod" [("type", Str "object")] = false
  /\ has "_def" [("type", Str "object")] = false
  /\ isZodSchema (Object [("type", Str "object")]) = false.
Proof.
  split; [reflexivity | split; [reflexivity |]].
  apply (proj2 (proj2 (proj2 (proj2 (proj2 (proj2 (proj2 (proj2 (proj2
           (proj2 isZodSchema_spec)))))))))); reflexivity.
Defined.

(** ** The Schema Aggregator *)

Section AggregatorFacts.

Import Spec.

Variable basename : string -> string -> string.

Lemma eta_SchemaExport (e : SchemaExport) :
  {| name := e.(name); schema := e.(schema) |} = e.
Proof. by destruct e. Qed.

(** One visit of the source loop is one step of the specified pass. *)
Lemma flatten_visit_aggregate (file : SchemaFile)
    (out : list SchemaExport) (seen : gset string) (e : SchemaExport) :
  flatten_visit basename file (out, seen) e
  = (out ++ aggregate basename seen [(file.(filePath), e)],
     emitted_after basename seen [(file.(filePath), e)]).
Proof.
  unfold flatten_visit. cbn [aggregate emitted_after rewritten name schema].
  destruct (decide (e.(name) ∈ seen)) as [Hin|Hout].
  - destruct (decide (basename file.(filePath) ".ts" +:+ "_" +:+ e.(name)
                      ∈ seen)) as [Hin'|Hout'].
    + rewrite decide_False by (intros Hn; by apply Hn).
      by rewrite app_nil_r.
    + by rewrite decide_True.
  - rewrite decide_True by done. by rewrite eta_SchemaExport.
Qed.

Lemma aggregate_app (seen : gset string)
    (l1 l2 : list (string * SchemaExport)) :
  aggregate basename seen (l1 ++ l2)
  = aggregate basename seen l1
    ++ aggregate basename (emitted_after basename seen l1) l2.
Proof.
  revert seen. induction l1 as [|[fp e] l1 IH]; intros seen; [done|].
  cbn [app aggregate emitted_after].
  repeat case_decide; rewrite ?IH; done.
Qed.

Lemma emitted_after_app (seen : gset string)
    (l1 l2 : list (string * SchemaExport)) :
  emitted_after basename seen (l1 ++ l2)
  = emitted_after basename (emitted_after basename seen l1) l2.
Proof.
  revert seen. induction l1 as [|[fp e] l1 IH]; intros seen; [done|].
  cbn [app emitted_after]. repeat case_decide; rewrite ?IH; done.
Qed.

Lemma flatten_file_aggregate (file : SchemaFile) (es : list SchemaExport)
    (out : list SchemaExport) (seen : gset string) :
  fold_left (flatten_visit basename file) es (out, seen)
  = (out ++ aggregate basename seen (map (pair file.(filePath)) es),
     emitted_after basename seen (map (pair file.(filePath)) es)).
Proof.
  revert out seen. induction es as [|e es IH]; intros out seen.
  - by rewrite app_nil_r.
  - cbn [fold_left map]. rewrite flatten_visit_aggregate, IH.
    change ((file.(filePath), e) :: map (pair file.(filePath)) es)
      with ([(file.(filePath), e)] ++ map (pair file.(filePath)) es).
    by rewrite aggregate_app, emitted_after_app, app_assoc.
Qed.

Lemma flatten_loop_aggregate (files : list SchemaFile)
    (out : list SchemaExport) (seen : gset string) :
  flatten_loop basename files (out, seen)
  = (out ++ aggregate basename seen (encounter_order files),
     emitted_after basename seen (encounter_order files)).
Proof.
  unfold flatten_loop.
  revert out seen. induction files as [|file files IH]; intros out seen.
  - by rewrite app_nil_r.
  - cbn [fold_left encounter_order flat_map].
    rewrite flatten_file_aggregate, IH.
    by rewrite aggregate_app, emitted_after_app, app_assoc.
Qed.

Lemma flattenSchemas_flatten (files : list SchemaFile) :
  flattenSchemas basename files = flatten basename files.
Proof. unfold flattenSchemas. by rewrite flatten_loop_aggregate. Qed.

(** Every emitted name is new with respect to the set the pass started
    from, and no name is emitted twice. *)
Lemma fresh_cons (seen : gset string) (x : SchemaExport)
    (out : list SchemaExport) :
  x.(name) ∉ seen ->
  NoDup (map name out)
  /\ (forall n, n ∈ map name out -> n ∉ {[x.(name)]} ∪ seen) ->
  NoDup (map name (x :: out))
  /\ (forall n, n ∈ map name (x :: out) -> n ∉ seen).
Proof.
  intros Hx [Hnd Hfresh]. split.
  - cbn [map]. constructor; [|done].
    intros Hin. apply Hfresh in Hin. set_solver.
  - intros n Hin. cbn [map] in Hin. apply elem_of_cons in Hin.
    destruct Hin as [->|Hin]; [done|].
    apply Hfresh in Hin. set_solver.
Qed.

Lemma aggregate_fresh (seen : gset string)
    (l : list (string * SchemaExport)) :
  NoDup (map name (aggregate basename seen l))
  /\ (forall n, n ∈ map name (aggregate basename seen l) -> n ∉ seen).
Proof.
  revert seen. induction l as [|[fp e] l IH]; intros seen.
  - split; [constructor | intros n Hn; by apply elem_of_nil in Hn].
  - cbn [aggregate]. repeat case_decide.
    + apply IH.
    + apply fresh_cons; [done | apply IH].
    + apply fresh_cons; [done | apply IH].
Qed.

(** The set the pass maintains is the set of the names emitted so far. *)
Lemma union_singleton_shift (n : string) (seen later : gset string) :
  {[n]} ∪ seen ∪ later = seen ∪ ({[n]} ∪ later).
Proof. by rewrite (comm_L (∪) {[n]} seen), (assoc_L (∪)). Qed.

Lemma emitted_after_names (seen : gset string)
    (l : list (string * SchemaExport)) :
  emitted_after basename seen l
  = seen ∪ list_to_set (map name (aggregate basename seen l)).
Proof.
  revert seen. induction l as [|[fp e] l IH]; intros seen.
  - cbn. by rewrite (right_id_L ∅ (∪)).
  - cbn [aggregate emitted_after]. repeat case_decide.
    + apply IH.
    + rewrite IH. cbn [map list_to_set]. apply union_singleton_shift.
    + rewrite IH. cbn [map list_to_set]. apply union_singleton_shift.
Qed.

(** The emitted exports appear in encounter order, each in one of its
    two forms. *)
Lemma aggregate_sublist (seen : gset string)
    (l : list (string * SchemaExport)) :
  aggregate basename seen l
  `sublist_of` flat_map (fun '(fp, e) => [e; rewritten basename fp e]) l.
Proof.
  revert seen. induction l as [|[fp e] l IH]; intros seen; [constructor|].
  cbn [aggregate flat_map app]. repeat case_decide.
  + do 2 apply sublist_cons. apply IH.
  + apply sublist_cons. apply sublist_skip. apply IH.
  + apply sublist_skip. apply sublist_cons. apply IH.
Qed.

Lemma encounter_order_app (fs1 fs2 : list SchemaFile) :
  encounter_order (fs1 ++ fs2) = encounter_order fs1 ++ encounter_order fs2.
Proof. apply flat_map_app. Qed.

Lemma flattenSchemas_NoDup (files : list SchemaFile) :
  NoDup (map name (flattenSchemas basename files)).
Proof. rewrite flattenSchemas_flatten. apply aggregate_fresh. Qed.

End AggregatorFacts.

(** C1.  [flattenSchemas] is the specified pass: files in input order,
    exports within a file in input order, an unseen name emitted as it
    is, a seen name rewritten to [{fileBaseName}_{name}] and emitted if
    that is unseen, the export dropped otherwise.  The names of the
    output are pairwise distinct; the output lists exports in encounter
    order, each under its own or its rewritten name; and what was
    emitted for the first files stays in front when more files follow. *)
Theorem flattenSchemas_spec
    (basename : string -> string -> string) (files : list SchemaFile) :
  flattenSchemas basename files = Spec.flatten basename files
  /\ NoDup (map name (flattenSchemas basename files))
  /\ flattenSchemas basename files `sublist_of` Spec.candidates basename files
  /\ forall more : list SchemaFile,
       flattenSchemas basename files
       `prefix_of` flattenSchemas basename (files ++ more).
Proof.
  repeat match goal with |- _ /\ _ => split end.
  - apply flattenSchemas_flatten.
  - apply flattenSchemas_NoDup.
  - rewrite flattenSchemas_flatten. apply aggregate_sublist.
  - intros more. rewrite !flattenSchemas_flatten. unfold Spec.flatten.
    rewrite encounter_order_app, aggregate_app. by apply prefix_app_r.
Qed.

(** *** The collision scenarios, run *)

(** Two files exporting [UserSchema] yield [User] and [b_User]. *)
Example flattenSchemas_collision :
  map name
    (flattenSchemas posix_basename
       [ {| filePath := "/src/a.ts"; schemas := export_of "UserSchema" |};
         {| filePath := "/src/b.ts"; schemas := export_of "UserSchema" |} ])
  = ["User"; "b_User"].
Proof. vm_compute. reflexivity. Qed.

(** A third [UserSchema] from a file with the same base name as the
    second one is dropped: three exports in, two out. *)
Example flattenSchemas_triple_collision :
  map name
    (flattenSchemas posix_basename
       [ {| filePath := "/src/a.ts"; schemas := export_of "UserSchema" |};
         {| filePath := "/src/x/b.ts"; schemas := export_of "UserSchema" |};
         {| filePath := "/src/y/b.ts"; schemas := export_of "UserSchema" |} ])
  = ["User"; "b_User"].
Proof. vm_compute. reflexivity. Qed.

(** ** The Converter Adapter and the Output Writer *)

Section RecordFacts.

Lemma has_cons (k k' : string) (v : Value) (r : Record) :
  has k ((k', v) :: r) = String.eqb k' k || has k r.
Proof. reflexivity. Qed.

Lemma omit_cons (k k' : string) (v : Value) (r : Record) :
  omit k ((k', v) :: r)
  = if String.eqb k' k then omit k r else (k', v) :: omit k r.
Proof. unfold omit. cbn [List.filter fst]. by destruct (String.eqb k' k). Qed.

Lemma omit_cons_same (k : string) (v : Value) (r : Record) :
  omit k ((k, v) :: r) = omit k r.
Proof. by rewrite omit_cons, String.eqb_refl. Qed.

Lemma has_omit (k : string) (r : Record) : has k (omit k r) = false.
Proof.
  induction r as [|[k' v] r IH]; [done|].
  rewrite omit_cons. destruct (String.eqb k' k) eqn:E; [done|].
  by rewrite has_cons, E, IH.
Qed.

Lemma omit_absent (k : string) (r : Record) : has k r = false -> omit k r = r.
Proof.
  induction r as [|[k' v] r IH]; [done|].
  rewrite has_cons, omit_cons. intros [-> Hr]%orb_false_iff.
  by rewrite IH.
Qed.

Lemma get_cons (k k' : string) (v : Value) (r : Record) :
  get k ((k', v) :: r) = if String.eqb k' k then v else get k r.
Proof. reflexivity. Qed.

Lemma has_replace (k k0 : string) (v : Value) (r : Record) :
  has k0 (replace k v r) = has k0 r.
Proof.
  induction r as [|[k' v'] r IH]; [done|]. cbn [replace].
  destruct (String.eqb_spec k' k) as [->|Hne]; [done|].
  by rewrite !has_cons, IH.
Qed.

Lemma get_replace_same (k : string) (v : Value) (r : Record) :
  has k r = true -> get k (replace k v r) = v.
Proof.
  induction r as [|[k' v'] r IH]; [done|]. rewrite has_cons. cbn [replace].
  destruct (String.eqb k' k) eqn:E.
  - intros _. by rewrite get_cons, String.eqb_refl.
  - intros Hr. rewrite get_cons, E. by apply IH.
Qed.

Lemma get_replace_other (k k0 : string) (v : Value) (r : Record) :
  k <> k0 -> get k0 (replace k v r) = get k0 r.
Proof.
  intros Hne. induction r as [|[k' v'] r IH]; [done|]. cbn [replace].
  destruct (String.eqb_spec k' k) as [->|Hk'].
  - rewrite !get_cons. by apply String.eqb_neq in Hne as ->.
  - by rewrite !get_cons, IH.
Qed.

Lemma has_insert_index (i : N) (k k0 : string) (v : Value) (r : Record) :
  has k0 (insert_index i k v r) = String.eqb k k0 || has k0 r.
Proof.
  induction r as [|[k' v'] r IH]; [done|]. cbn [insert_index].
  destruct (array_index k') as [j|]; [|done].
  destruct (j <? i)%N; [|done].
  rewrite !has_cons, IH.
  by destruct (String.eqb k' k0), (String.eqb k k0).
Qed.

Lemma get_insert_index_same (i : N) (k : string) (v : Value) (r : Record) :
  has k r = false -> get k (insert_index i k v r) = v.
Proof.
  induction r as [|[k' v'] r IH]; cbn [insert_index].
  - intros _. by rewrite get_cons, String.eqb_refl.
  - rewrite has_cons. intros [Hk Hr]%orb_false_iff.
    destruct (array_index k') as [j|];
      [destruct (j <? i)%N|]; rewrite get_cons;
      rewrite ?Hk, ?String.eqb_refl; [by apply IH | done | done].
Qed.

Lemma get_insert_index_other (i : N) (k k0 : string) (v : Value)
    (r : Record) :
  k <> k0 -> get k0 (insert_index i k v r) = get k0 r.
Proof.
  intros Hne%String.eqb_neq.
  induction r as [|[k' v'] r IH]; cbn [insert_index].
  - by rewrite get_cons, Hne.
  - destruct (array_index k') as [j|];
      [destruct (j <? i)%N|]; rewrite ?get_cons, ?Hne, ?IH; done.
Qed.

Lemma has_app (k : string) (r1 r2 : Record) :
  has k (r1 ++ r2) = has k r1 || has k r2.
Proof. unfold has. apply existsb_app. Qed.

Lemma get_absent (k : string) (r : Record) :
  has k r = false -> get k r = Undefined.
Proof.
  induction r as [|[k' v'] r IH]; [done|].
  rewrite has_cons, get_cons. intros [-> Hr]%orb_false_iff. by apply IH.
Qed.

Lemma get_app (k : string) (r1 r2 : Record) :
  get k (r1 ++ r2) = if has k r1 then get k r1 else get k r2.
Proof.
  induction r1 as [|[k' v'] r1 IH]; [done|].
  cbn [app]. rewrite !get_cons, has_cons.
  destruct (String.eqb k' k); [done | exact IH].
Qed.

(** Assignment to [__proto__] creates no property; to any other key it
    makes the key present with the value assigned, and leaves the other
    keys as they are. *)
Lemma set_proto (v : Value) (r : Record) : set "__proto__" v r = r.
Proof. reflexivity. Qed.

Lemma get_set_same (k : string) (v : Value) (r : Record) :
  k <> "__proto__" -> get k (set k v r) = v.
Proof.
  intros Hk%String.eqb_neq. unfold set. rewrite Hk.
  destruct (has k r) eqn:Hhas; [by apply get_replace_same|].
  destruct (array_index k) as [i|]; [by apply get_insert_index_same|].
  by rewrite get_app, Hhas, get_cons, String.eqb_refl.
Qed.

Lemma get_set_other (k k0 : string) (v : Value) (r : Record) :
  k <> k0 -> get k0 (set k v r) = get k0 r.
Proof.
  intros Hne. unfold set. destruct (String.eqb k "__proto__"); [done|].
  destruct (has k r); [by apply get_replace_other|].
  destruct (array_index k) as [i|]; [by apply get_insert_index_other|].
  rewrite get_app, get_cons. apply String.eqb_neq in Hne as ->.
  destruct (has k0 r) eqn:Hk0; [done|]. symmetry. by apply get_absent.
Qed.

Lemma has_set_same (k : string) (v : Value) (r : Record) :
  k <> "__proto__" -> has k (set k v r) = true.
Proof.
  intros Hk%String.eqb_neq. unfold set. rewrite Hk.
  destruct (has k r) eqn:Hhas; [by rewrite has_replace|].
  destruct (array_index k) as [i|].
  - by rewrite has_insert_index, String.eqb_refl.
  - by rewrite has_app, has_cons, String.eqb_refl, orb_true_r.
Qed.

Lemma has_set_other (k k0 : string) (v : Value) (r : Record) :
  k <> k0 -> has k0 (set k v r) = has k0 r.
Proof.
  intros Hne. unfold set. destruct (String.eqb k "__proto__"); [done|].
  destruct (has k r); [by rewrite has_replace|].
  apply String.eqb_neq in Hne.
  destruct (array_index k) as [i|].
  - by rewrite has_insert_index, Hne.
  - rewrite has_app, has_cons, Hne. by rewrite !orb_false_r.
Qed.

End RecordFacts.

Section WriterFacts.

Variable toJSONSchema : Value -> string -> Result Record.
Variable basename : string -> string -> string.
Variable path_join : string -> string -> string.
Variable JSON_stringify : Value -> option nat -> string.
Variable fs_writeFile : string -> string -> Result unit.

Local Abbreviation convert := (convertToJsonSchema toJSONSchema).
Local Abbreviation serialize := (Cli.serialize JSON_stringify).
Local Abbreviation writeSeparateOutputs :=
  (Cli.writeSeparateOutputs toJSONSchema path_join JSON_stringify
     fs_writeFile).
Local Abbreviation writeCombinedOutput :=
  (Cli.writeCombinedOutput toJSONSchema path_join JSON_stringify).
Local Abbreviation run_from_scan :=
  (Cli.run_from_scan toJSONSchema basename path_join JSON_stringify
     fs_writeFile).
Local Abbreviation write_ok := (Steps.write_ok fs_writeFile).
Local Abbreviation separate_file :=
  (Steps.separate_file toJSONSchema path_join JSON_stringify).
Local Abbreviation conversion_error := (Steps.conversion_error toJSONSchema).
Local Abbreviation defs_visit := (Steps.defs_visit toJSONSchema).


Lemma convert_Throw (schema : Value) (name target : string)
    (error : Exception) :
  toJSONSchema schema target = Throw error ->
  convert schema name target = Throw (Error (failure_message name error)).
Proof. intros H. unfold convertToJsonSchema, try_catch. by rewrite H. Qed.

Lemma separate_visit_spec (outputDir target : string) (format : bool)
    (st : SeparateLoop) (entry : SchemaExport) :
  (exists file,
     separate_file outputDir target format entry = Some file
     /\ conversion_error target entry = None
     /\ separate_visit toJSONSchema path_join JSON_stringify fs_writeFile
          outputDir target format st entry
        = {| written := st.(written) ++ [file];
             successCount :=
               st.(successCount) + length (List.filter write_ok [file]);
             errorCount :=
               st.(errorCount)
               + length (List.filter (fun f => negb (write_ok f)) [file]) |})
  \/ (exists error,
        separate_file outputDir target format entry = None
        /\ conversion_error target entry = Some error
        /\ separate_visit toJSONSchema path_join JSON_stringify fs_writeFile
             outputDir target format st entry
           = {| written := st.(written);
                successCount := st.(successCount);
                errorCount := S st.(errorCount) |}).
Proof.
  unfold separate_visit, Steps.separate_file, Steps.conversion_error,
    try_catch.
  destruct (convert _ _ _) as [jsonSchema|error].
  - left. eexists. split; [reflexivity|]. split; [reflexivity|].
    cbn [List.filter]. unfold Steps.write_ok. cbn [path content].
    destruct (fs_writeFile _ _) as [[]|failure]; cbn [negb length];
      f_equal; lia.
  - right. by exists error.
Qed.

Lemma separate_loop_spec (outputDir target : string) (format : bool)
    (entries : list SchemaExport) (st : SeparateLoop) :
  separate_loop toJSONSchema path_join JSON_stringify fs_writeFile
    outputDir target format entries st
  = {| written :=
         st.(written) ++ omap (separate_file outputDir target format) entries;
       successCount :=
         st.(successCount)
         + length (List.filter write_ok
                     (omap (separate_file outputDir target format) entries));
       errorCount :=
         st.(errorCount)
         + (length (omap (conversion_error target) entries)
            + length (List.filter (fun file => negb (write_ok file))
                        (omap (separate_file outputDir target format)
                           entries))) |}.
Proof.
  unfold separate_loop. revert st.
  induction entries as [|entry entries IH]; intros st.
  - cbn. rewrite app_nil_r, !Nat.add_0_r. by destruct st.
  - cbn [fold_left omap list_omap]. rewrite IH. clear IH.
    destruct (separate_visit_spec outputDir target format st entry)
      as [(file & -> & -> & ->) | (error & -> & -> & ->)];
      cbn [written successCount errorCount].
    + rewrite <- app_assoc.
      change (file :: omap (separate_file outputDir target format) entries)
        with ([file] ++ omap (separate_file outputDir target format) entries).
      rewrite !List.filter_app, !length_app. cbn [app length].
      f_equal; lia.
    + cbn [length]. f_equal. lia.
Qed.

Lemma combined_loop_spec (target : string)
    (entries : list SchemaExport) (st : CombinedLoop) :
  combined_loop toJSONSchema target entries st
  = {| defs := fold_left (defs_visit target) entries st.(defs);
       combinedErrors :=
         st.(combinedErrors)
         + length (omap (conversion_error target) entries) |}.
Proof.
  unfold combined_loop. revert st.
  induction entries as [|entry entries IH]; intros st.
  - cbn. rewrite Nat.add_0_r. by destruct st.
  - cbn [fold_left omap list_omap]. rewrite IH. clear IH.
    unfold combined_visit, Steps.defs_visit, Steps.conversion_error, try_catch.
    destruct (convert _ _ _) as [jsonSchema|error];
      cbn [defs combinedErrors length]; f_equal; lia.
Qed.

Lemma writeSeparateOutputs_spec (schemas : list SchemaExport)
    (outputDir target : string) (format : bool) :
  writeSeparateOutputs schemas outputDir target format
  = {| written := omap (separate_file outputDir target format) schemas;
       successCount :=
         length (List.filter write_ok
                   (omap (separate_file outputDir target format) schemas));
       errorCount :=
         length (omap (conversion_error target) schemas)
         + length (List.filter (fun file => negb (write_ok file))
                     (omap (separate_file outputDir target format)
                        schemas)) |}.
Proof. unfold Cli.writeSeparateOutputs. by rewrite separate_loop_spec. Qed.

Lemma writeCombinedOutput_spec (schemas : list SchemaExport)
    (outputDir target : string) (format : bool) :
  writeCombinedOutput schemas outputDir target format
  = {| combinedFile :=
         {| path := path_join outputDir "schemas.json";
            content :=
              serialize format
                (Object [("$schema", Str (getSchemaUrl target));
                         ("$defs",
                          Object (fold_left (defs_visit target) schemas []))])
         |};
       combinedErrorCount := length (omap (conversion_error target) schemas)
    |}.
Proof. unfold Cli.writeCombinedOutput. by rewrite combined_loop_spec. Qed.



(** The entry stored under a name by the loop of combined mode, when
    names do not repeat. *)
Lemma defs_fold_other (target : string) (entries : list SchemaExport)
    (defs0 : Record) (k : string) :
  k ∉ map name entries ->
  get k (fold_left (defs_visit target) entries defs0) = get k defs0
  /\ has k (fold_left (defs_visit target) entries defs0) = has k defs0.
Proof.
  revert defs0. induction entries as [|e entries IH]; intros defs0 Hk; [done|].
  cbn [map] in Hk. apply not_elem_of_cons in Hk as [Hne Hk].
  cbn [fold_left]. destruct (IH (defs_visit target defs0 e) Hk) as [-> ->].
  unfold Steps.defs_visit. destruct (convert _ _ _); [|done].
  by rewrite get_set_other, has_set_other.
Qed.

Lemma defs_fold_lookup (target : string) (entries : list SchemaExport)
    (defs0 : Record) (entry : SchemaExport) (jsonSchema : Record) :
  NoDup (map name entries) ->
  entry ∈ entries ->
  entry.(name) <> "__proto__" ->
  convert entry.(schema) entry.(name) target = Ok jsonSchema ->
  get entry.(name) (fold_left (defs_visit target) entries defs0)
  = Object (omit "$schema" jsonSchema)
  /\ has entry.(name) (fold_left (defs_visit target) entries defs0) = true.
Proof.
  revert defs0.
  induction entries as [|e entries IH]; intros defs0 Hnd Hin Hname Hc.
  - by apply elem_of_nil in Hin.
  - cbn [map] in Hnd. apply NoDup_cons in Hnd as [Hfresh Hnd].
    cbn [fold_left]. apply elem_of_cons in Hin as [<-|Hin].
    + destruct (defs_fold_other target entries
                  (defs_visit target defs0 entry) _ Hfresh) as [-> ->].
      unfold Steps.defs_visit. rewrite Hc.
      by rewrite get_set_same, has_set_same.
    + by apply IH.
Qed.

(** C6 (the code departs from the specification).  A schema exported as
    [__proto__Schema] has the display name [__proto__].  Its conversion
    succeeding, separate mode writes its document to [__proto__.json],
    but in combined mode the assignment [$defs[name] = ...] changes the
    prototype of [$defs] and stores nothing: the file written has an
    empty [$defs], and no error is counted. *)
Theorem combined_drops_schema_named_proto
    (value : Value) (verbose : bool) (outputDir target : string)
    (format : bool) (jsonSchema : Record) :
  isZodSchema value = true ->
  convert value "__proto__" target = Ok jsonSchema ->
  let schemas := extractSchemasFromFile [("__proto__Schema", value)] verbose in
  schemas = [{| name := "__proto__"; schema := value |}]
  /\ writeCombinedOutput schemas outputDir target format
     = {| combinedFile :=
            {| path := path_join outputDir "schemas.json";
               content :=
                 serialize format
                   (Object [("$schema", Str (getSchemaUrl target));
                            ("$defs", Object [])]) |};
          combinedErrorCount := 0 |}
  /\ (writeSeparateOutputs schemas outputDir target format).(written)
     = [{| path := path_join outputDir "__proto__.json";
           content :=
             serialize format (Object (finalSchema target jsonSchema)) |}].
Proof.
  intros Hschema Hconv schemas.
  assert (schemas = [{| name := "__proto__"; schema := value |}]) as ->.
  { subst schemas. unfold extractSchemasFromFile. cbn [fold_left].
    rewrite Hschema. reflexivity. }
  split; [reflexivity|]. split.
  - rewrite writeCombinedOutput_spec. cbn [fold_left omap list_omap].
    unfold Steps.defs_visit, Steps.conversion_error. cbn [name schema].
    rewrite Hconv. reflexivity.
  - rewrite writeSeparateOutputs_spec. cbn [written omap list_omap].
    unfold Steps.separate_file. cbn [name schema]. by rewrite Hconv.
Qed.

(** X25.  In combined mode the file written is [schemas.json] with the
    two keys [$schema], computed from the target, and [$defs]; for a
    schema of the aggregate whose name is not [__proto__] and whose
    conversion succeeds, the entry under its name in [$defs] has no
    [$schema] key and is the document that separate mode hands to
    [fs.writeFile] for that schema with the [$schema] key taken out. *)
Theorem combined_entry_for_ordinary_name
    (scanResults : list SchemaFile) (outputDir target : string)
    (format : bool) (entry : SchemaExport) (jsonSchema : Record) :
  let schemas := flattenSchemas basename scanResults in
  entry ∈ schemas ->
  entry.(name) <> "__proto__" ->
  convert entry.(schema) entry.(name) target = Ok jsonSchema ->
  exists (defs separate : Record),
    (writeCombinedOutput schemas outputDir target format).(combinedFile)
    = {| path := path_join outputDir "schemas.json";
         content :=
           serialize format
             (Object [("$schema", Str (getSchemaUrl target));
                      ("$defs", Object defs)]) |}
    /\ {| path := path_join outputDir (entry.(name) +:+ ".json");
          content := serialize format (Object separate) |}
       ∈ (writeSeparateOutputs schemas outputDir target format).(written)
    /\ separate
       = (if has "$schema" jsonSchema then jsonSchema
          else ("$schema", Str (getSchemaUrl target)) :: jsonSchema)
    /\ has entry.(name) defs = true
    /\ get entry.(name) defs = Object (omit "$schema" separate)
    /\ has "$schema" (omit "$schema" separate) = false.
Proof.
  intros schemas Hin Hname Hconv.
  exists (fold_left (defs_visit target) schemas []),
         (finalSchema target jsonSchema).
  assert (omit "$schema" (finalSchema target jsonSchema)
          = omit "$schema" jsonSchema) as Homit.
  { unfold finalSchema. destruct (has "$schema" jsonSchema); [done|].
    apply omit_cons_same. }
  destruct (defs_fold_lookup target schemas [] entry jsonSchema
              (flattenSchemas_NoDup basename scanResults) Hin Hname Hconv)
    as [Hget Hhas].
  repeat match goal with |- _ /\ _ => split end.
  - by rewrite writeCombinedOutput_spec.
  - rewrite writeSeparateOutputs_spec. cbn [written].
    apply list_elem_of_omap. exists entry. split; [done|].
    unfold Steps.separate_file. by rewrite Hconv.
  - unfold finalSchema. by destruct (has "$schema" jsonSchema).
  - done.
  - by rewrite Homit.
  - apply has_omit.
Qed.

(** C8.  When the external converter throws for a schema, [convert]
    throws an error whose message names the schema.  Either writer then
    finishes as it does on the list without that schema, except that its
    error count is one higher: nothing is written for the schema, and
    the schemas before and after it are processed as usual. *)
Theorem conversion_failure_is_tallied_and_skipped
    (before after : list SchemaExport) (failing : SchemaExport)
    (outputDir target : string) (format : bool) (error : Exception) :
  toJSONSchema failing.(schema) target = Throw error ->
  convert failing.(schema) failing.(name) target
  = Throw (Error ("Failed to convert schema " +:+ dquote +:+ failing.(name)
                  +:+ dquote +:+ ": " +:+ toString error))
  /\ (let without :=
        writeSeparateOutputs (before ++ after) outputDir target format in
      writeSeparateOutputs (before ++ failing :: after) outputDir target format
      = {| written := without.(written);
           successCount := without.(successCount);
           errorCount := S without.(errorCount) |})
  /\ (let without :=
        writeCombinedOutput (before ++ after) outputDir target format in
      writeCombinedOutput (before ++ failing :: after) outputDir target format
      = {| combinedFile := without.(combinedFile);
           combinedErrorCount := S without.(combinedErrorCount) |}).
Proof.
  intros Hthrow. pose proof (convert_Throw _ failing.(name) _ _ Hthrow) as Hc.
  assert (separate_file outputDir target format failing = None) as Hfile
    by (unfold Steps.separate_file; by rewrite Hc).
  assert (conversion_error target failing
          = Some (Error (failure_message failing.(name) error))) as Herr
    by (unfold Steps.conversion_error; by rewrite Hc).
  assert (forall defs0, defs_visit target defs0 failing = defs0) as Hdefs
    by (intros defs0; unfold Steps.defs_visit; by rewrite Hc).
  split; [exact Hc|]. split.
  - cbv zeta. rewrite !writeSeparateOutputs_spec.
    cbn [written successCount errorCount].
    rewrite !omap_app. cbn [omap list_omap]. rewrite Hfile, Herr.
    f_equal. rewrite !length_app. cbn [length]. lia.
  - cbv zeta. rewrite !writeCombinedOutput_spec.
    cbn [combinedFile combinedErrorCount].
    rewrite !fold_left_app. cbn [fold_left]. rewrite Hdefs.
    f_equal. rewrite !omap_app. cbn [omap list_omap]. rewrite Herr.
    rewrite !length_app. cbn [length]. lia.
Qed.


(** An empty scan writes nothing; a non-empty one, in combined mode,
    creates the directory and writes the one file whatever the
    conversions do. *)
Lemma run_from_scan_nothing_found (outputDir target : string)
    (combined format : bool) :
  run_from_scan [] outputDir combined target format = [].
Proof. reflexivity. Qed.

Lemma run_from_scan_combined (scanResults : list SchemaFile)
    (outputDir target : string) (format : bool) :
  scanResults <> [] ->
  exists content : string,
    run_from_scan scanResults outputDir true target format
    = [Mkdir outputDir;
       WriteFile {| path := path_join outputDir "schemas.json";
                    content := content |}].
Proof.
  intros Hne. unfold Cli.run_from_scan.
  destruct scanResults as [|f fs]; [done|]. cbn [length Nat.eqb].
  rewrite writeCombinedOutput_spec. cbn [combinedFile]. eauto.
Qed.


(** C9.  The name [Schema] normalises to the empty string; a schema
    exported under that name is collected with the empty name, and
    separate mode writes it to [path.join(outputDir, '.json')]. *)
Theorem export_named_Schema_gets_empty_name
    (value : Value) (verbose : bool) (filePath outputDir target : string)
    (format : bool) (jsonSchema : Record) :
  isZodSchema value = true ->
  convert value EmptyString target = Ok jsonSchema ->
  let scanResults :=
    [{| filePath := filePath;
        schemas := extractSchemasFromFile [("Schema", value)] verbose |}] in
  normalizeSchemaName "Schema" = EmptyString
  /\ extractSchemasFromFile [("Schema", value)] verbose
     = [{| name := EmptyString; schema := value |}]
  /\ flattenSchemas basename scanResults
     = [{| name := EmptyString; schema := value |}]
  /\ run_from_scan scanResults outputDir false target format
     = [Mkdir outputDir;
        WriteFile
          {| path := path_join outputDir ".json";
             content :=
               serialize format (Object (finalSchema target jsonSchema)) |}].
Proof.
  intros Hschema Hconv scanResults.
  assert (extractSchemasFromFile [("Schema", value)] verbose
          = [{| name := EmptyString; schema := value |}]) as Hextract.
  { unfold extractSchemasFromFile. cbn [fold_left]. rewrite Hschema.
    reflexivity. }
  assert (flattenSchemas basename scanResults
          = [{| name := EmptyString; schema := value |}]) as Hflat.
  { subst scanResults. rewrite Hextract.
    unfold flattenSchemas, flatten_loop. cbn [fold_left schemas].
    unfold flatten_visit. cbn [name schema].
    destruct (decide (EmptyString ∈ (∅ : gset string))) as [Hin|_];
      [by apply not_elem_of_empty in Hin|].
    destruct (decide (EmptyString ∉ (∅ : gset string))) as [_|Hout];
      [reflexivity|].
    exfalso. apply Hout. apply not_elem_of_empty. }
  split; [reflexivity|]. split; [exact Hextract|]. split; [exact Hflat|].
  unfold Cli.run_from_scan. cbn [length Nat.eqb]. rewrite Hflat.
  rewrite writeSeparateOutputs_spec. cbn [written omap list_omap].
  unfold Steps.separate_file. cbn [name schema]. by rewrite Hconv.
Qed.

End WriterFacts.

(** *** The writers, run on a small converter *)



Lemma combined_entry_for_ordinary_name_witness :
  user_export ∈ flattenSchemas posix_basename (one_file [user_export])
  /\ user_export.(name) <> "__proto__"
  /\ convertToJsonSchema demo_toJSONSchema
       user_export.(schema) user_export.(name) "draft-7"
     = Ok [("title", Str "User"); ("type", Str "object")]
  /\ exists defs : Record,
       (writeCombinedOutput demo_toJSONSchema demo_join demo_stringify
          (flattenSchemas posix_basename (one_file [user_export]))
          "/out" "draft-7" true).(combinedFile)
       = {| path := "/out/schemas.json";
            content :=
              demo_stringify
                (Object [("$schema",
                          Str "http://json-schema.org/draft-07/schema#");
                         ("$defs", Object defs)]) (Some 2) |}
       /\ get "User" defs
          = Object [("title", Str "User"); ("type", Str "object")].
Proof.
  assert (user_export ∈ flattenSchemas posix_basename (one_file [user_export]))
    as Hin by (vm_compute; apply list_elem_of_here).
  assert (user_export.(name) <> "__proto__") as Hname by discriminate.
  split; [exact Hin|]. split; [exact Hname|]. split; [reflexivity|].
  destruct (combined_entry_for_ordinary_name
              demo_toJSONSchema posix_basename demo_join demo_stringify
              demo_writeFile
              (one_file [user_export]) "/out" "draft-7" true user_export
              [("title", Str "User"); ("type", Str "object")]
              Hin Hname eq_refl)
    as (defs & separate & Hfile & _ & Hseparate & _ & Hget & _).
  exists defs. split; [exact Hfile|].
  rewrite Hseparate in Hget. exact Hget.
Defined.

Lemma combined_drops_schema_named_proto_witness :
  isZodSchema example_schema = true
  /\ convertToJsonSchema demo_toJSONSchema example_schema "__proto__" "draft-7"
     = Ok [("title", Str "__proto__"); ("type", Str "object")]
  /\ writeCombinedOutput demo_toJSONSchema demo_join demo_stringify
       (extractSchemasFromFile [("__proto__Schema", example_schema)] false)
       "/out" "draft-7" true
     = {| combinedFile :=
            {| path := "/out/schemas.json";
               content :=
                 demo_stringify
                   (Object [("$schema",
                             Str "http://json-schema.org/draft-07/schema#");
                            ("$defs", Object [])]) (Some 2) |};
          combinedErrorCount := 0 |}.
Proof.
  split; [reflexivity|]. split; [reflexivity|].
  exact (proj1 (proj2 (combined_drops_schema_named_proto
                         demo_toJSONSchema demo_join demo_stringify
                         demo_writeFile example_schema false "/out" "draft-7"
                         true [("title", Str "__proto__");
                               ("type", Str "object")]
                         eq_refl eq_refl))).
Defined.

Lemma conversion_failure_is_tallied_and_skipped_witness :
  demo_toJSONSchema bad_export.(schema) "draft-7"
  = Throw (Raised "TypeError: not a schema")
  /\ (writeSeparateOutputs demo_toJSONSchema demo_join demo_stringify
          demo_writeFile
        ([user_export] ++ bad_export :: [user_export])
        "/out" "draft-7" true).(errorCount) = 1.
Proof.
  split; [reflexivity|].
  destruct (conversion_failure_is_tallied_and_skipped
              demo_toJSONSchema demo_join demo_stringify demo_writeFile
              [user_export] [user_export] bad_export "/out" "draft-7" true
              (Raised "TypeError: not a schema") eq_refl)
    as (_ & Hseparate & _).
  cbv zeta in Hseparate. rewrite Hseparate. reflexivity.
Defined.


Lemma export_named_Schema_gets_empty_name_witness :
  isZodSchema example_schema = true
  /\ convertToJsonSchema demo_toJSONSchema example_schema EmptyString "draft-7"
     = Ok [("title", Str EmptyString); ("type", Str "object")]
  /\ run_from_scan demo_toJSONSchema posix_basename demo_join demo_stringify
       demo_writeFile
       [{| filePath := "/src/models.ts";
           schemas :=
             extractSchemasFromFile [("Schema", example_schema)] false |}]
       "/out" false "draft-7" true
     = [Mkdir "/out";
        WriteFile {| path := "/out/.json";
                     content := "$schema,title,type" |}].
Proof.
  split; [reflexivity|]. split; [reflexivity|].
  exact (proj2 (proj2 (proj2
           (export_named_Schema_gets_empty_name
              demo_toJSONSchema posix_basename demo_join demo_stringify
              demo_writeFile
              example_schema false "/src/models.ts" "/out" "draft-7" true
              [("title", Str EmptyString); ("type", Str "object")]
              eq_refl eq_refl)))).
Defined.

(** * Further properties of the code *)

Import ScanSteps DemoDriver.

(** ** The Name Normalizer, continued *)

Section NormalizerMore.

Lemma append_empty_r (s : string) : s +:+ EmptyString = s.
Proof.
  induction s as [|a s IH]; [done|].
  transitivity (String a (s +:+ EmptyString)); [reflexivity | by rewrite IH].
Qed.

Lemma strip_suffix_split (s : string) :
  exists suffix : string,
    s = strip_suffix s +:+ suffix
    /\ (suffix = EmptyString \/ suffix = "Schema" \/ suffix = "Zod").
Proof.
  unfold strip_suffix. destruct (endsWith s "Schema") eqn:HSchema.
  - exists "Schema". split; [|tauto].
    rewrite (endsWith_split s "Schema" HSchema) at 2.
    rewrite (slice_append _ "Schema") by done.
    by apply endsWith_split.
  - destruct (endsWith s "Zod") eqn:HZod.
    + exists "Zod". split; [|tauto].
      rewrite (endsWith_split s "Zod" HZod) at 2.
      rewrite (slice_append _ "Zod") by done.
      by apply endsWith_split.
    + exists EmptyString. split; [by rewrite append_empty_r | tauto].
Qed.

Lemma strip_z_split (s : string) :
  exists prefix : string,
    s = prefix +:+ strip_z s /\ (prefix = EmptyString \/ prefix = "z").
Proof.
  destruct s as [|a [|c rest]]; try (exists EmptyString; split; [done|tauto]).
  simpl. destruct (Ascii.eqb a "z") eqn:Ha; simpl.
  - apply Ascii.eqb_eq in Ha as ->.
    destruct (fixed_by_toUpperCase c).
    + exists "z". split; [reflexivity | tauto].
    + exists EmptyString. split; [reflexivity | tauto].
  - exists EmptyString. split; [reflexivity | tauto].
Qed.

Lemma in_A_Z_fixed (c : ascii) :
  in_A_Z c = true -> fixed_by_toUpperCase c = true.
Proof. destruct c as [[] [] [] [] [] [] [] []]; vm_compute; done. Qed.

Lemma in_A_Z_not_z (c : ascii) : in_A_Z c = true -> c <> "z"%char.
Proof. intros Hc ->. by vm_compute in Hc. Qed.

(** A string that ends in [Validator] ends in neither [Schema] nor
    [Zod]. *)
Lemma endsWith_Validator (s : string) :
  endsWith (s +:+ "Validator") "Schema" = false
  /\ endsWith (s +:+ "Validator") "Zod" = false.
Proof.
  pose proof (endsWith_last _ "Validator" 8 "r"
                (endsWith_append s "Validator") eq_refl eq_refl) as Hr.
  split.
  - destruct (endsWith (s +:+ "Validator") "Schema") eqn:E; [|done].
    pose proof (endsWith_last _ "Schema" 5 "a" E eq_refl eq_refl). congruence.
  - destruct (endsWith (s +:+ "Validator") "Zod") eqn:E; [|done].
    pose proof (endsWith_last _ "Zod" 2 "d" E eq_refl eq_refl). congruence.
Qed.

(** A first character that is not the first of the suffix does not
    make a string end in it. *)
Lemma endsWith_cons (a c : ascii) (s p : string) :
  a <> c -> endsWith (String a s) (String c p) = endsWith s (String c p).
Proof.
  intros Hac. unfold endsWith. cbn [String.length].
  destruct (le_lt_dec (S (String.length p)) (String.length s)) as [Hle|Hlt].
  - replace (S (String.length s) - S (String.length p))
      with (S (String.length s - S (String.length p))) by lia.
    cbn [substring].
    rewrite (leb_correct (S (String.length p)) (S (String.length s))) by lia.
    by rewrite (leb_correct (S (String.length p)) (String.length s)) by lia.
  - rewrite (leb_correct_conv (String.length s) (S (String.length p))) by lia.
    destruct (decide (String.length p = String.length s)) as [Heq|Hne].
    + rewrite Heq, Nat.sub_diag. cbn [substring String.eqb].
      apply Ascii.eqb_neq in Hac. rewrite Hac. by rewrite andb_false_r.
    + by rewrite (leb_correct_conv (S (String.length s))
                    (S (String.length p))) by lia.
Qed.

End NormalizerMore.

(** X1.  The normalised name is the export name with at most a leading
    [z] and at most one trailing [Schema] or [Zod] taken off: nothing is
    added, reordered or taken from the middle, and the result is never
    longer than the input. *)
Theorem normalizeSchemaName_trims (exportName : string) :
  exists prefix suffix : string,
    exportName = prefix +:+ normalizeSchemaName exportName +:+ suffix
    /\ (prefix = EmptyString \/ prefix = "z")
    /\ (suffix = EmptyString \/ suffix = "Schema" \/ suffix = "Zod")
    /\ String.length (normalizeSchemaName exportName)
       <= String.length exportName.
Proof.
  destruct (strip_suffix_split exportName) as (suffix & Hs & Hsuffix).
  destruct (strip_z_split (strip_suffix exportName)) as (prefix & Hp & Hprefix).
  exists prefix, suffix. rewrite normalizeSchemaName_steps.
  assert (exportName = prefix +:+ strip_z (strip_suffix exportName) +:+ suffix)
    as Heq.
  { rewrite Hs at 1. rewrite Hp at 1.
    destruct Hprefix as [-> | ->]; reflexivity. }
  repeat match goal with |- _ /\ _ => split end; try done.
  apply (f_equal String.length) in Heq. rewrite !length_append in Heq. lia.
Qed.

(** X2.  The suffix [Validator] makes an export qualify but is never
    taken off: unless the export name starts with [z], it is its own
    display name. *)
Theorem normalizeSchemaName_keeps_Validator (stem : string) :
  startsWith stem "z" = false ->
  isLikelySchemaName (stem +:+ "Validator") = true
  /\ normalizeSchemaName (stem +:+ "Validator") = stem +:+ "Validator".
Proof.
  intros Hz. destruct (endsWith_Validator stem) as [HSchema HZod]. split.
  - unfold isLikelySchemaName.
    rewrite (endsWith_append stem "Validator"). by rewrite !orb_true_r.
  - rewrite normalizeSchemaName_no_suffix by done.
    destruct stem as [|a stem]; [reflexivity|].
    unfold startsWith in Hz. rewrite prefix_z in Hz.
    apply strip_z_other. by apply Ascii.eqb_neq.
Qed.

Lemma normalizeSchemaName_keeps_Validator_witness :
  startsWith "User" "z" = false
  /\ normalizeSchemaName "UserValidator" = "UserValidator".
Proof.
  split; [reflexivity|].
  exact (proj2 (normalizeSchemaName_keeps_Validator "User" eq_refl)).
Defined.

(** X3.  For a stem [X] that starts with an uppercase letter, the
    exports [XSchema], [XZod], [zXSchema] and [zXZod] all get the
    display name [X], and so does [zX] when [X] itself ends in neither
    [Schema] nor [Zod]: these are the names that collide. *)
Theorem normalizeSchemaName_collisions (c : ascii) (rest : string) :
  in_A_Z c = true ->
  let X := String c rest in
  normalizeSchemaName (X +:+ "Schema") = X
  /\ normalizeSchemaName (X +:+ "Zod") = X
  /\ normalizeSchemaName (String "z" X +:+ "Schema") = X
  /\ normalizeSchemaName (String "z" X +:+ "Zod") = X
  /\ (endsWith X "Schema" = false ->
      endsWith X "Zod" = false ->
      normalizeSchemaName (String "z" X) = X).
Proof.
  intros Hc X. subst X.
  pose proof (in_A_Z_fixed c Hc) as Hfixed.
  pose proof (in_A_Z_not_z c Hc) as Hnz.
  assert (strip_z (String "z" (String c rest)) = String c rest) as Hz
    by (by rewrite strip_z_z, Hfixed).
  repeat match goal with |- _ /\ _ => split end.
  - rewrite normalizeSchemaName_Schema. by apply strip_z_other.
  - rewrite normalizeSchemaName_Zod. by apply strip_z_other.
  - by rewrite normalizeSchemaName_Schema.
  - by rewrite normalizeSchemaName_Zod.
  - intros HSchema HZod. rewrite normalizeSchemaName_no_suffix; [done | |].
    + change "Schema" with (String "S" "chema").
      rewrite endsWith_cons by done. exact HSchema.
    + change "Zod" with (String "Z" "od").
      rewrite endsWith_cons by done. exact HZod.
Qed.

(** The stem [ASchema] shows that the condition on [zX] is needed:
    [zASchema] gets the display name [A]. *)
Example normalizeSchemaName_zASchema :
  normalizeSchemaName "zASchema" = "A".
Proof. reflexivity. Qed.

Lemma normalizeSchemaName_collisions_witness :
  in_A_Z "U" = true
  /\ normalizeSchemaName "zUserZod" = "User"
  /\ normalizeSchemaName "zUser" = "User".
Proof.
  split; [reflexivity|].
  pose proof (normalizeSchemaName_collisions "U" "ser" eq_refl) as H.
  cbv zeta in H. destruct H as (_ & _ & _ & HzZod & Hz).
  split; [exact HzZod | exact (Hz eq_refl eq_refl)].
Defined.

(** ** The export filter of the Directory Scanner *)

Section ExtractFacts.

(** The two suffix tests in front of [isLikelySchemaName] add nothing
    to it. *)
Lemma qualifying_name (exportName : string) :
  endsWith exportName "Schema" || endsWith exportName "Zod"
  || isLikelySchemaName exportName
  = isLikelySchemaName exportName.
Proof.
  unfold isLikelySchemaName.
  destruct (endsWith exportName "Schema"), (endsWith exportName "Zod"); done.
Qed.

Lemma extract_loop_collect (verbose : bool)
    (module : list (string * Value)) (acc : list SchemaExport) :
  fold_left
    (fun schemas '(exportName, exportValue) =>
       if String.eqb exportName "default" then schemas
       else if isZodSchema exportValue then
         if endsWith exportName "Schema"
            || endsWith exportName "Zod"
            || isLikelySchemaName exportName
         then schemas ++ [{| name := normalizeSchemaName exportName;
                             schema := exportValue |}]
         else if verbose
         then schemas ++ [{| name := exportName; schema := exportValue |}]
         else schemas
       else schemas)
    module acc
  = acc ++ omap (collect verbose) module.
Proof.
  revert acc. induction module as [|[n v] module IH]; intros acc.
  - by rewrite app_nil_r.
  - cbn [fold_left omap list_omap]. rewrite IH. clear IH.
    unfold collect. cbn [fst snd]. rewrite qualifying_name.
    destruct (String.eqb n "default"); [done|].
    destruct (isZodSchema v); [|done].
    destruct (isLikelySchemaName n); [by rewrite <- app_assoc|].
    destruct verbose; [by rewrite <- app_assoc | done].
Qed.

Lemma extractSchemasFromFile_collect (module : list (string * Value))
    (verbose : bool) :
  extractSchemasFromFile module verbose = omap (collect verbose) module.
Proof. unfold extractSchemasFromFile. by rewrite extract_loop_collect. Qed.

Lemma collect_Some (verbose : bool) (entry : string * Value)
    (e : SchemaExport) :
  collect verbose entry = Some e <->
  entry.1 <> "default" /\ isZodSchema entry.2 = true /\ e.(schema) = entry.2
  /\ ((isLikelySchemaName entry.1 = true
       /\ e.(name) = normalizeSchemaName entry.1)
      \/ (isLikelySchemaName entry.1 = false /\ verbose = true
          /\ e.(name) = entry.1)).
Proof.
  unfold collect. destruct entry as [n v]. cbn [fst snd].
  destruct (String.eqb_spec n "default") as [->|Hn].
  { split; [discriminate | by intros [? _]]. }
  destruct (isZodSchema v).
  2: { split; [discriminate | by intros (_ & ? & _)]. }
  destruct (isLikelySchemaName n).
  - split.
    + intros [= <-]. cbn. tauto.
    + intros (_ & _ & Hs & [[_ Hname] | [? _]]); [|done].
      destruct e. cbn in *. by subst.
  - destruct verbose.
    + split.
      * intros [= <-]. cbn. tauto.
      * intros (_ & _ & Hs & [[? _] | (_ & _ & Hname)]); [done|].
        destruct e. cbn in *. by subst.
    + split; [discriminate|].
      intros (_ & _ & _ & [[? _] | (_ & ? & _)]); done.
Qed.

End ExtractFacts.

(** X4.  What [extractSchemasFromFile] collects from an export table:
    exactly the exports other than [default] whose value is a schema and
    whose name matches a naming pattern, under the normalised name, and,
    in verbose mode only, the other schema exports under their own
    name. *)
Theorem extractSchemasFromFile_elem
    (module : list (string * Value)) (verbose : bool) (e : SchemaExport) :
  e ∈ extractSchemasFromFile module verbose <->
  exists exportName : string,
    (exportName, e.(schema)) ∈ module
    /\ exportName <> "default"
    /\ isZodSchema e.(schema) = true
    /\ ((isLikelySchemaName exportName = true
         /\ e.(name) = normalizeSchemaName exportName)
        \/ (isLikelySchemaName exportName = false /\ verbose = true
            /\ e.(name) = exportName)).
Proof.
  rewrite extractSchemasFromFile_collect, list_elem_of_omap. split.
  - intros ([n v] & Hin & Hc). apply collect_Some in Hc.
    cbn [fst snd] in Hc. destruct Hc as (Hn & Hz & Hs & Hname).
    exists n. rewrite Hs. by repeat split.
  - intros (n & Hin & Hn & Hz & Hname).
    exists (n, e.(schema)). split; [done|].
    apply collect_Some. cbn [fst snd]. by repeat split.
Qed.

(** X5.  Verbose mode only adds exports: what is collected without it
    is collected with it, under the same names and in the same order. *)
Theorem extractSchemasFromFile_verbose_adds
    (module : list (string * Value)) :
  extractSchemasFromFile module false
  `sublist_of` extractSchemasFromFile module true.
Proof.
  rewrite !extractSchemasFromFile_collect.
  induction module as [|[n v] module IH]; [constructor|].
  cbn [omap list_omap].
  assert (collect false (n, v) = None
          \/ collect false (n, v) = collect true (n, v)) as [Hc | Hc].
  { unfold collect. cbn [fst snd].
    destruct (String.eqb n "default"); [by left|].
    destruct (isZodSchema v); [|by left].
    destruct (isLikelySchemaName n); [by right | by left]. }
  - rewrite Hc. destruct (collect true (n, v)); [by apply sublist_cons | done].
  - rewrite Hc. destruct (collect true (n, v)); [by apply sublist_skip | done].
Qed.

(** X6.  The exports collected keep the order of the export table, and
    no entry of the table is collected twice. *)
Theorem extractSchemasFromFile_order
    (module : list (string * Value)) (verbose : bool) :
  map schema (extractSchemasFromFile module verbose)
  `sublist_of` map snd module.
Proof.
  rewrite extractSchemasFromFile_collect.
  induction module as [|[n v] module IH]; [constructor|].
  cbn [omap list_omap map snd].
  destruct (collect verbose (n, v)) as [e|] eqn:Hc.
  - apply collect_Some in Hc. cbn [fst snd] in Hc.
    destruct Hc as (_ & _ & Hs & _). cbn [map]. rewrite Hs.
    by apply sublist_skip.
  - by apply sublist_cons.
Qed.

(** ** The loop of the Directory Scanner *)

Section ScanFacts.

Variable import_module : string -> Result (list (string * Value)).
Variable glob : string -> string -> list string -> list string.
Variable path_resolve : string -> string.
Variable path_join : string -> string -> string.

Local Abbreviation scanDirectory :=
  (Driver.scanDirectory import_module glob path_resolve path_join).

Local Abbreviation matched_paths :=
  (ScanSteps.matched_paths glob path_resolve path_join).

Lemma scan_loop_spec (absoluteDir : string) (verbose : bool)
    (files : list string) (acc : list SchemaFile) :
  fold_left (Driver.scan_visit import_module path_join absoluteDir verbose)
            files acc
  = acc ++ omap (scan_file import_module verbose)
                (map (path_join absoluteDir) files).
Proof.
  revert acc. induction files as [|file files IH]; intros acc.
  - by rewrite app_nil_r.
  - cbn [fold_left map omap list_omap]. rewrite IH. clear IH.
    unfold Driver.scan_visit, Driver.importSchemasFromFile, scan_file,
      try_catch.
    destruct (import_module _) as [module|error]; [|done].
    destruct (0 <? length _)%nat; [by rewrite <- app_assoc | done].
Qed.

Lemma scanDirectory_spec (inputDir : string)
    (options : Driver.ScanOptions.t) :
  scanDirectory inputDir options
  = omap (scan_file import_module
            (default false options.(Driver.ScanOptions.verbose)))
         (matched_paths inputDir options).
Proof. unfold Driver.scanDirectory. by rewrite scan_loop_spec. Qed.

Lemma scan_file_Some (verbose : bool) (p : string) (f : SchemaFile) :
  scan_file import_module verbose p = Some f <->
  exists module,
    import_module p = Ok module
    /\ f = {| filePath := p;
              schemas := extractSchemasFromFile module verbose |}
    /\ extractSchemasFromFile module verbose <> [].
Proof.
  unfold scan_file. destruct (import_module p) as [module|error].
  - destruct (extractSchemasFromFile module verbose) as [|e es] eqn:Hes;
      cbn [length Nat.ltb Nat.leb].
    + split; [discriminate | by intros (m & [= <-] & _ & Hne); rewrite Hes in Hne].
    + split.
      * intros [= <-]. exists module. by rewrite Hes.
      * intros (m & [= <-] & -> & _). by rewrite Hes.
  - split; [discriminate | by intros (m & ? & _)].
Qed.

(** X7.  Every entry of a scan result is a matched file whose import
    succeeded, holds what [extractSchemasFromFile] collects from its
    export table, and holds at least one export. *)
Theorem scanDirectory_entries (inputDir : string)
    (options : Driver.ScanOptions.t) (f : SchemaFile) :
  f ∈ scanDirectory inputDir options ->
  exists module : list (string * Value),
    f.(filePath) ∈ matched_paths inputDir options
    /\ import_module f.(filePath) = Ok module
    /\ f.(schemas)
       = extractSchemasFromFile module
           (default false options.(Driver.ScanOptions.verbose))
    /\ f.(schemas) <> [].
Proof.
  rewrite scanDirectory_spec, list_elem_of_omap.
  intros (p & Hp & Hf). apply scan_file_Some in Hf.
  destruct Hf as (module & Himport & -> & Hne).
  exists module. by repeat split.
Qed.

(** X8.  The scan result lists, in the order of the glob matcher, the
    matched files that load and yield a schema.  A file whose import
    throws, or from which nothing is collected, is left out and the
    files after it are still scanned. *)
Theorem scanDirectory_paths (inputDir : string)
    (options : Driver.ScanOptions.t) :
  let verbose := default false options.(Driver.ScanOptions.verbose) in
  map filePath (scanDirectory inputDir options)
  = List.filter
      (fun p => bool_decide (is_Some (scan_file import_module verbose p)))
      (matched_paths inputDir options)
  /\ (forall p error,
        import_module p = Throw error ->
        p ∉ map filePath (scanDirectory inputDir options))
  /\ (forall p module,
        import_module p = Ok module ->
        extractSchemasFromFile module verbose = [] ->
        p ∉ map filePath (scanDirectory inputDir options)).
Proof.
  intros verbose.
  assert (forall f, f ∈ scanDirectory inputDir options ->
            scan_file import_module verbose f.(filePath) = Some f) as Hin.
  { intros f. rewrite scanDirectory_spec, list_elem_of_omap.
    intros (p & _ & Hf). pose proof Hf as Hf'.
    apply scan_file_Some in Hf' as (module & _ & -> & _). exact Hf. }
  split; [|split].
  - rewrite scanDirectory_spec. fold verbose.
    induction (matched_paths inputDir options) as [|p ps IH]; [done|].
    cbn [omap list_omap List.filter].
    destruct (scan_file import_module verbose p) as [f|] eqn:Hf.
    + rewrite bool_decide_eq_true_2 by eauto. cbn [map]. rewrite IH.
      apply scan_file_Some in Hf as (module & _ & -> & _). reflexivity.
    + rewrite bool_decide_eq_false_2 by (by intros [? ?]). exact IH.
  - intros p error Himport (f & -> & Hf%Hin)%list_elem_of_fmap.
    unfold scan_file in Hf. by rewrite Himport in Hf.
  - intros p module Himport Hempty (f & -> & Hf%Hin)%list_elem_of_fmap.
    unfold scan_file in Hf. by rewrite Himport, Hempty in Hf.
Qed.

Lemma scanDirectory_files_nonempty (inputDir : string)
    (options : Driver.ScanOptions.t) :
  Forall (fun f => f.(schemas) <> []) (scanDirectory inputDir options).
Proof.
  apply Forall_forall. intros f.
  rewrite scanDirectory_spec, list_elem_of_omap.
  intros (p & _ & Hf). by apply scan_file_Some in Hf as (module & _ & -> & ?).
Qed.

Lemma scanDirectory_all_fail (inputDir : string)
    (options : Driver.ScanOptions.t) :
  Forall (fun p => exists error, import_module p = Throw error)
         (matched_paths inputDir options) ->
  scanDirectory inputDir options = [].
Proof.
  rewrite scanDirectory_spec.
  induction 1 as [|p ps [error Hp] _ IH]; [done|].
  cbn [omap list_omap]. unfold scan_file at 1. by rewrite Hp.
Qed.

End ScanFacts.

(** ** The Schema Aggregator, continued *)

Section AggregatorMore.

Import Spec.

Variable basename : string -> string -> string.

Lemma encounter_order_exports (files : list SchemaFile) :
  map snd (encounter_order files) = all_exports files.
Proof.
  unfold encounter_order, all_exports.
  induction files as [|file files IH]; [done|].
  cbn [flat_map]. rewrite map_app, IH. f_equal.
  induction file.(schemas) as [|e es IHes]; [done|].
  cbn [map snd]. by rewrite IHes.
Qed.

Lemma encounter_order_elem (files : list SchemaFile) (e : SchemaExport) :
  e ∈ all_exports files -> exists fp, (fp, e) ∈ encounter_order files.
Proof.
  rewrite <- encounter_order_exports. intros Hin.
  apply list_elem_of_fmap in Hin as ([fp e'] & -> & Hin). eauto.
Qed.

Lemma aggregate_no_collision (seen : gset string)
    (l : list (string * SchemaExport)) :
  NoDup (map name (map snd l)) ->
  (forall n, n ∈ map name (map snd l) -> n ∉ seen) ->
  aggregate basename seen l = map snd l.
Proof.
  revert seen. induction l as [|[fp e] l IH]; intros seen Hnd Hfresh; [done|].
  cbn [map snd] in *. apply NoDup_cons in Hnd as [Hhead Hnd].
  cbn [aggregate]. rewrite decide_False by (apply Hfresh; left).
  f_equal. apply IH; [done|].
  intros n Hn. apply not_elem_of_union. split.
  - intros ->%elem_of_singleton. done.
  - apply Hfresh. by right.
Qed.

Lemma emitted_after_subseteq (seen : gset string)
    (l : list (string * SchemaExport)) (n : string) :
  n ∈ seen -> n ∈ emitted_after basename seen l.
Proof.
  revert seen. induction l as [|[fp e] l IH]; intros seen Hn; [done|].
  cbn [emitted_after]. repeat case_decide; apply IH;
    try done; apply elem_of_union; by right.
Qed.

Lemma emitted_after_elem (seen : gset string)
    (l : list (string * SchemaExport)) (fp : string) (e : SchemaExport) :
  (fp, e) ∈ l -> e.(name) ∈ emitted_after basename seen l.
Proof.
  revert seen. induction l as [|[fp' e'] l IH]; intros seen Hin.
  - by apply elem_of_nil in Hin.
  - cbn [emitted_after].
    apply elem_of_cons in Hin as [[= <- <-] | Hin].
    + repeat case_decide; apply emitted_after_subseteq;
        first [ done
              | apply elem_of_union; right; done
              | apply elem_of_union; left; by apply elem_of_singleton ].
    + repeat case_decide; by apply IH.
Qed.

(** The collision name is never the name it is built from. *)
Lemma rewritten_name_differs (fp : string) (e : SchemaExport) :
  (rewritten basename fp e).(name) <> e.(name).
Proof.
  cbn [rewritten name]. intros Heq.
  apply (f_equal String.length) in Heq.
  rewrite !length_append in Heq. cbn [String.length] in Heq. lia.
Qed.

Lemma aggregate_all_seen (seen : gset string) (fp : string)
    (n : string) (rest : list SchemaExport) :
  n ∈ seen -> basename fp ".ts" +:+ "_" +:+ n ∈ seen ->
  Forall (fun e => e.(name) = n) rest ->
  aggregate basename seen (map (pair fp) rest) = [].
Proof.
  intros Hn Hr. induction 1 as [|e rest He _ IH]; [done|].
  cbn [map aggregate rewritten name]. rewrite He.
  by rewrite !decide_True.
Qed.

End AggregatorMore.

(** X9.  When no two exports of the scan share a name, the aggregate is
    the concatenation of the files' exports, unchanged. *)
Theorem flattenSchemas_no_collision
    (basename : string -> string -> string) (files : list SchemaFile) :
  NoDup (map name (all_exports files)) ->
  flattenSchemas basename files = all_exports files.
Proof.
  intros Hnd. rewrite flattenSchemas_flatten. unfold Spec.flatten.
  rewrite <- encounter_order_exports in *.
  apply aggregate_no_collision; [done|].
  intros n _. apply not_elem_of_empty.
Qed.

Lemma flattenSchemas_no_collision_witness :
  NoDup (map name (all_exports (one_file [user_export; bad_export])))
  /\ flattenSchemas posix_basename (one_file [user_export; bad_export])
     = [user_export; bad_export].
Proof.
  assert (NoDup (map name (all_exports (one_file [user_export; bad_export]))))
    as Hnd.
  { apply (bool_decide_unpack _). by vm_compute. }
  split; [exact Hnd|].
  exact (flattenSchemas_no_collision posix_basename _ Hnd).
Defined.

(** X10.  Every display name found by the scan is a name of the
    aggregate: an export can lose its own name to an earlier one, or be
    dropped, but its name is never missing from the output. *)
Theorem flattenSchemas_names_covered
    (basename : string -> string -> string) (files : list SchemaFile)
    (e : SchemaExport) :
  e ∈ all_exports files ->
  e.(name) ∈ map name (flattenSchemas basename files).
Proof.
  intros [fp Hin]%encounter_order_elem.
  pose proof (emitted_after_elem basename ∅ _ _ _ Hin) as Hname.
  rewrite emitted_after_names in Hname.
  rewrite flattenSchemas_flatten. unfold Spec.flatten.
  apply elem_of_union in Hname as [Hempty | Hname].
  - by apply not_elem_of_empty in Hempty.
  - by apply elem_of_list_to_set in Hname.
Qed.

Lemma flattenSchemas_names_covered_witness :
  user_export ∈ all_exports (one_file [bad_export; user_export])
  /\ "User" ∈ map name (flattenSchemas posix_basename
                          (one_file [bad_export; user_export])).
Proof.
  assert (user_export ∈ all_exports (one_file [bad_export; user_export]))
    as Hin by (cbn; apply list_elem_of_further, list_elem_of_here).
  split; [exact Hin|].
  exact (flattenSchemas_names_covered posix_basename _ _ Hin).
Defined.

(** X11.  A file that exports the same display name three times or more
    keeps two of them: the first under the name, the second under the
    collision name, and every later one is dropped. *)
Theorem flattenSchemas_same_name_in_one_file
    (basename : string -> string -> string) (fp : string)
    (first second : SchemaExport) (later : list SchemaExport) :
  second.(name) = first.(name) ->
  Forall (fun e => e.(name) = first.(name)) later ->
  flattenSchemas basename
    [{| filePath := fp; schemas := first :: second :: later |}]
  = [first;
     {| name := basename fp ".ts" +:+ "_" +:+ first.(name);
        schema := second.(schema) |}].
Proof.
  intros Hsecond Hlater. rewrite flattenSchemas_flatten.
  unfold Spec.flatten, Spec.encounter_order.
  cbn [flat_map filePath schemas map]. rewrite app_nil_r.
  pose proof (rewritten_name_differs basename fp first) as Hdiff.
  cbn [Spec.rewritten name] in Hdiff.
  cbn [Spec.aggregate Spec.rewritten name schema].
  rewrite decide_False by apply not_elem_of_empty.
  rewrite Hsecond.
  rewrite decide_True by (apply elem_of_union; left; by apply elem_of_singleton).
  rewrite decide_False.
  2: { intros [Hin | Hin]%elem_of_union.
       - by apply elem_of_singleton in Hin.
       - by apply not_elem_of_empty in Hin. }
  f_equal. f_equal; [unfold Spec.rewritten; by rewrite Hsecond|].
  apply (aggregate_all_seen basename _ fp first.(name)); [| |done].
  - apply elem_of_union. right. apply elem_of_union. left.
    by apply elem_of_singleton.
  - apply elem_of_union. left. by apply elem_of_singleton.
Qed.

Lemma flattenSchemas_same_name_in_one_file_witness :
  map name
    (flattenSchemas posix_basename
       [{| filePath := "/src/user.ts";
           schemas := [user_export; user_export; user_export] |}])
  = ["User"; "user_User"].
Proof.
  assert (Forall (fun e => e.(name) = user_export.(name)) [user_export])
    as Hlater by (repeat constructor).
  rewrite (flattenSchemas_same_name_in_one_file posix_basename
             "/src/user.ts" user_export user_export [user_export] eq_refl
             Hlater).
  reflexivity.
Defined.

Lemma flattenSchemas_head
    (basename : string -> string -> string) (f : SchemaFile)
    (files : list SchemaFile) :
  f.(schemas) <> [] -> flattenSchemas basename (f :: files) <> [].
Proof.
  destruct f as [fp [|e es]]; [done|]. intros _.
  rewrite flattenSchemas_flatten.
  unfold Spec.flatten, Spec.encounter_order.
  cbn [flat_map filePath schemas map app Spec.aggregate].
  by rewrite decide_False by apply not_elem_of_empty.
Qed.

(** X12.  The first export of the first file is always emitted, under
    its own name, and is the first entry of the aggregate. *)
Theorem flattenSchemas_first
    (basename : string -> string -> string) (fp : string)
    (e : SchemaExport) (es : list SchemaExport) (files : list SchemaFile) :
  exists tail : list SchemaExport,
    flattenSchemas basename
      ({| filePath := fp; schemas := e :: es |} :: files)
    = e :: tail.
Proof.
  rewrite flattenSchemas_flatten.
  unfold Spec.flatten, Spec.encounter_order.
  cbn [flat_map filePath schemas map app Spec.aggregate].
  rewrite decide_False by apply not_elem_of_empty. eauto.
Qed.

(** X13.  Aggregating an aggregate again, as the exports of one file,
    changes nothing. *)
Theorem flattenSchemas_idempotent
    (basename basename' : string -> string -> string) (fp : string)
    (files : list SchemaFile) :
  flattenSchemas basename'
    [{| filePath := fp; schemas := flattenSchemas basename files |}]
  = flattenSchemas basename files.
Proof.
  rewrite flattenSchemas_no_collision;
    unfold all_exports; cbn [flat_map schemas]; rewrite app_nil_r; [done|].
  apply flattenSchemas_NoDup.
Qed.

(** ** The Output Writer, continued *)

Section RecordMore.

Lemma has_omit_other (k k' : string) (r : Record) :
  k <> k' -> has k (omit k' r) = has k r.
Proof.
  intros Hne. induction r as [|[k0 v] r IH]; [done|].
  rewrite omit_cons. destruct (String.eqb_spec k0 k') as [->|Hk0].
  - rewrite IH, has_cons. by apply not_eq_sym, String.eqb_neq in Hne as ->.
  - by rewrite !has_cons, IH.
Qed.

Lemma set_fresh (k : string) (v : Value) (r : Record) :
  k <> "__proto__" -> array_index k = None -> has k r = false ->
  set k v r = r ++ [(k, v)].
Proof.
  intros Hk%String.eqb_neq Hindex Hhas. unfold set.
  by rewrite Hk, Hhas, Hindex.
Qed.

Lemma elem_of_replace (k : string) (v : Value) (r : Record)
    (kv : string * Value) :
  kv ∈ replace k v r -> kv = (k, v) \/ kv ∈ r.
Proof.
  induction r as [|[k0 v0] r IH]; cbn [replace]; [by right|].
  destruct (String.eqb k0 k).
  - intros [->|Hin]%elem_of_cons; [by left | right; by right].
  - intros [->|Hin]%elem_of_cons; [right; by left|].
    destruct (IH Hin) as [->|Hr]; [by left | right; by right].
Qed.

Lemma elem_of_insert_index (i : N) (k : string) (v : Value) (r : Record)
    (kv : string * Value) :
  kv ∈ insert_index i k v r -> kv = (k, v) \/ kv ∈ r.
Proof.
  induction r as [|[k0 v0] r IH]; cbn [insert_index].
  - intros ->%list_elem_of_singleton. by left.
  - destruct (array_index k0) as [j|]; [destruct (j <? i)%N|].
    + intros [->|Hin]%elem_of_cons; [right; by left|].
      destruct (IH Hin) as [->|Hr]; [by left | right; by right].
    + intros [->|Hin]%elem_of_cons; [by left | by right].
    + intros [->|Hin]%elem_of_cons; [by left | by right].
Qed.

Lemma elem_of_set (k : string) (v : Value) (r : Record)
    (kv : string * Value) :
  kv ∈ set k v r -> kv = (k, v) \/ kv ∈ r.
Proof.
  unfold set. destruct (String.eqb k "__proto__"); [by right|].
  destruct (has k r); [apply elem_of_replace|].
  destruct (array_index k) as [i|]; [apply elem_of_insert_index|].
  intros [Hin | ->%list_elem_of_singleton]%elem_of_app; [by right | by left].
Qed.

End RecordMore.

Section WriterMore.

Variable toJSONSchema : Value -> string -> Result Record.
Variable basename : string -> string -> string.
Variable path_join : string -> string -> string.
Variable JSON_stringify : Value -> option nat -> string.
Variable fs_writeFile : string -> string -> Result unit.

Local Abbreviation convert := (convertToJsonSchema toJSONSchema).
Local Abbreviation serialize := (Cli.serialize JSON_stringify).
Local Abbreviation writeSeparateOutputs :=
  (Cli.writeSeparateOutputs toJSONSchema path_join JSON_stringify
     fs_writeFile).
Local Abbreviation writeCombinedOutput :=
  (Cli.writeCombinedOutput toJSONSchema path_join JSON_stringify).
Local Abbreviation run_from_scan :=
  (Cli.run_from_scan toJSONSchema basename path_join JSON_stringify
     fs_writeFile).
Local Abbreviation write_ok := (Steps.write_ok fs_writeFile).
Local Abbreviation separate_file :=
  (Steps.separate_file toJSONSchema path_join JSON_stringify).
Local Abbreviation conversion_error := (Steps.conversion_error toJSONSchema).
Local Abbreviation defs_visit := (Steps.defs_visit toJSONSchema).
Local Abbreviation defs_entry := (ScanSteps.defs_entry toJSONSchema).

Lemma convert_has_title (schema : Value) (name target : string)
    (jsonSchema : Record) :
  convert schema name target = Ok jsonSchema -> has "title" jsonSchema = true.
Proof.
  unfold convertToJsonSchema, try_catch.
  destruct (toJSONSchema schema target) as [doc|error]; [|discriminate].
  destruct (has "title" doc) eqn:Htitle; cbn [negb]; by intros [= <-].
Qed.

Lemma finalSchema_keys (target : string) (jsonSchema : Record) :
  has "$schema" (finalSchema target jsonSchema) = true
  /\ has "title" (finalSchema target jsonSchema) = has "title" jsonSchema.
Proof.
  unfold finalSchema. by destruct (has "$schema" jsonSchema) eqn:E.
Qed.

Lemma tally_lengths (outputDir target : string) (format : bool)
    (schemas : list SchemaExport) :
  length (omap (separate_file outputDir target format) schemas)
  + length (omap (conversion_error target) schemas)
  = length schemas.
Proof.
  induction schemas as [|e schemas IH]; [done|].
  cbn [omap list_omap].
  unfold Steps.separate_file at 1, Steps.conversion_error at 1.
  destruct (convert _ _ _); cbn [length]; lia.
Qed.

Lemma filter_partition_length (files : list FileWrite) :
  length (List.filter write_ok files)
  + length (List.filter (fun file => negb (write_ok file)) files)
  = length files.
Proof.
  induction files as [|file files IH]; [done|].
  cbn [List.filter]. destruct (write_ok file); cbn [negb length]; lia.
Qed.

(** X14.  Separate mode tallies every schema exactly once, as a success
    or as an error: a success is a schema that converts and whose write
    resolves, so [successCount] is the number of calls of
    [fs.writeFile] that resolved, and a write that rejects counts as an
    error. *)
Theorem writeSeparateOutputs_tally (schemas : list SchemaExport)
    (outputDir target : string) (format : bool) :
  let result := writeSeparateOutputs schemas outputDir target format in
  result.(successCount) + result.(errorCount) = length schemas
  /\ result.(successCount) = length (List.filter write_ok result.(written))
  /\ length result.(written) <= length schemas.
Proof.
  cbv zeta. rewrite writeSeparateOutputs_spec.
  cbn [written successCount errorCount].
  pose proof (tally_lengths outputDir target format schemas) as Htally.
  pose proof (filter_partition_length
                (omap (separate_file outputDir target format) schemas))
    as Hparts.
  repeat split; lia.
Qed.

(** X15.  Every file that separate mode writes is the file of one of
    the schemas, named after it, and its document has both a [$schema]
    and a [title] key, whatever the converter returned. *)
Theorem separate_documents_have_schema_and_title
    (schemas : list SchemaExport) (outputDir target : string)
    (format : bool) (file : FileWrite) :
  file ∈ (writeSeparateOutputs schemas outputDir target format).(written) ->
  exists (entry : SchemaExport) (document : Record),
    entry ∈ schemas
    /\ file.(path) = path_join outputDir (entry.(name) +:+ ".json")
    /\ file.(content) = serialize format (Object document)
    /\ has "$schema" document = true
    /\ has "title" document = true.
Proof.
  rewrite writeSeparateOutputs_spec. cbn [written].
  intros (entry & Hin & Hfile)%list_elem_of_omap.
  unfold Steps.separate_file in Hfile.
  destruct (convert _ _ _) as [jsonSchema|error] eqn:Hconv; [|discriminate].
  injection Hfile as <-.
  exists entry, (finalSchema target jsonSchema).
  destruct (finalSchema_keys target jsonSchema) as [Hschema Htitle].
  repeat split; try done.
  rewrite Htitle. by eapply convert_has_title.
Qed.


(** X17.  On the same schemas the error count of separate mode is the
    error count of combined mode, which counts the conversions that
    throw, plus the number of writes that reject. *)
Theorem writers_error_counts (schemas : list SchemaExport)
    (outputDir target : string) (format format' : bool) :
  let separate := writeSeparateOutputs schemas outputDir target format' in
  separate.(errorCount)
  = (writeCombinedOutput schemas outputDir target format).(combinedErrorCount)
    + length (List.filter (fun file => negb (write_ok file))
                separate.(written)).
Proof.
  cbv zeta. by rewrite writeCombinedOutput_spec, writeSeparateOutputs_spec.
Qed.

Lemma defs_fold_has (target : string) (entries : list SchemaExport)
    (defs0 : Record) (n : string) :
  has n (fold_left (defs_visit target) entries defs0) = true <->
  has n defs0 = true
  \/ (n <> "__proto__"
      /\ exists entry jsonSchema,
           entry ∈ entries /\ entry.(name) = n
           /\ convert entry.(schema) entry.(name) target = Ok jsonSchema).
Proof.
  revert defs0. induction entries as [|e entries IH]; intros defs0.
  - cbn. split; [by left|]. intros [?|(_ & ? & ? & Hin & _)]; [done|].
    by apply elem_of_nil in Hin.
  - cbn [fold_left]. rewrite IH. clear IH. unfold Steps.defs_visit at 1.
    destruct (convert e.(schema) e.(name) target) as [j|err] eqn:Hc.
    + destruct (decide (e.(name) = n)) as [<-|Hne].
      * destruct (decide (e.(name) = "__proto__")) as [Hproto|Hproto].
        -- rewrite Hproto, set_proto. split.
           ++ intros [?|[Hn _]]; [by left | done].
           ++ intros [?|[Hn _]]; [by left | done].
        -- rewrite has_set_same by done. split; [|by left].
           intros _. right. split; [done|].
           exists e, j. split; [by left | done].
      * rewrite has_set_other by done. split.
        -- intros [?|(Hn & x & jx & Hin & Hx & Hcx)]; [by left|].
           right. split; [done|]. exists x, jx. split; [by right | done].
        -- intros [?|(Hn & x & jx & [->|Hin]%elem_of_cons & Hx & Hcx)];
             [by left | done |].
           right. split; [done|]. by exists x, jx.
    + split.
      * intros [?|(Hn & x & jx & Hin & Hx & Hcx)]; [by left|].
        right. split; [done|]. exists x, jx. split; [by right | done].
      * intros [?|(Hn & x & jx & [->|Hin]%elem_of_cons & Hx & Hcx)];
          [by left | congruence |].
        right. split; [done|]. by exists x, jx.
Qed.

Lemma defs_fold_entries (target : string) (entries : list SchemaExport)
    (defs0 : Record) (P : string * Value -> Prop) :
  (forall entry jsonSchema,
     convert entry.(schema) entry.(name) target = Ok jsonSchema ->
     P (entry.(name), Object (omit "$schema" jsonSchema))) ->
  Forall P defs0 ->
  Forall P (fold_left (defs_visit target) entries defs0).
Proof.
  intros Hnew. revert defs0.
  induction entries as [|e entries IH]; intros defs0 Hdefs0; [done|].
  cbn [fold_left]. apply IH. unfold Steps.defs_visit.
  destruct (convert e.(schema) e.(name) target) as [j|err] eqn:Hc; [|done].
  apply Forall_forall. intros kv [->|Hin]%elem_of_set.
  - by apply Hnew.
  - by eapply Forall_forall in Hdefs0.
Qed.

(** X18.  The [$defs] map of combined mode has a key exactly for the
    names, other than [__proto__], under which some schema converts;
    each entry is an object with a [title] key and without a [$schema]
    key. *)
Theorem combined_defs_contents (schemas : list SchemaExport)
    (outputDir target : string) (format : bool) :
  exists defs : Record,
    (writeCombinedOutput schemas outputDir target format).(combinedFile)
    = {| path := path_join outputDir "schemas.json";
         content :=
           serialize format
             (Object [("$schema", Str (getSchemaUrl target));
                      ("$defs", Object defs)]) |}
    /\ (forall n : string,
          has n defs = true <->
          n <> "__proto__"
          /\ exists entry jsonSchema,
               entry ∈ schemas /\ entry.(name) = n
               /\ convert entry.(schema) entry.(name) target
                  = Ok jsonSchema)
    /\ (forall (k : string) (v : Value),
          (k, v) ∈ defs ->
          exists document : Record,
            v = Object document
            /\ has "title" document = true
            /\ has "$schema" document = false).
Proof.
  exists (fold_left (defs_visit target) schemas []).
  split; [by rewrite writeCombinedOutput_spec|]. split.
  - intros n. rewrite defs_fold_has. split; [|by right].
    by intros [?|?].
  - intros k v Hin.
    assert (Forall (fun kv : string * Value =>
                      exists document : Record,
                        kv.2 = Object document
                        /\ has "title" document = true
                        /\ has "$schema" document = false)
                   (fold_left (defs_visit target) schemas [])) as Hall.
    { apply defs_fold_entries; [|constructor].
      intros entry j Hc. cbn [snd]. eexists. split; [reflexivity|]. split.
      - rewrite has_omit_other by done. by eapply convert_has_title.
      - apply has_omit. }
    rewrite Forall_forall in Hall. exact (Hall (k, v) Hin).
Qed.

Lemma defs_fold_fresh (target : string) (entries : list SchemaExport)
    (defs0 : Record) :
  NoDup (map name entries) ->
  forallb ordinary_key (map name entries) = true ->
  (forall n, n ∈ map name entries -> has n defs0 = false) ->
  fold_left (defs_visit target) entries defs0
  = defs0 ++ omap (defs_entry target) entries.
Proof.
  revert defs0.
  induction entries as [|e entries IH]; intros defs0 Hnd Hkeys Hfresh.
  - by rewrite app_nil_r.
  - cbn [map forallb] in *. apply NoDup_cons in Hnd as [Hhead Hnd].
    apply andb_true_iff in Hkeys as [Hkey Hkeys].
    apply andb_true_iff in Hkey as [Hproto Hindex].
    apply negb_true_iff, String.eqb_neq in Hproto.
    assert (array_index e.(name) = None) as Hindex'
      by (by destruct (array_index e.(name))).
    cbn [fold_left omap list_omap].
    destruct (convert e.(schema) e.(name) target) as [j|err] eqn:Hc.
    + assert (defs_visit target defs0 e
              = set e.(name) (Object (omit "$schema" j)) defs0) as ->
        by (unfold Steps.defs_visit; by rewrite Hc).
      assert (defs_entry target e
              = Some (e.(name), Object (omit "$schema" j))) as ->
        by (unfold ScanSteps.defs_entry; by rewrite Hc).
      rewrite set_fresh by (done || apply Hfresh; by left).
      rewrite IH; [by rewrite <- app_assoc | done | done |].
      intros n Hn. rewrite has_app, has_cons. cbn [has existsb].
      rewrite (Hfresh n) by (by right).
      assert (String.eqb e.(name) n = false) as ->
        by (apply String.eqb_neq; intros Heq; by subst n).
      done.
    + assert (defs_visit target defs0 e = defs0) as ->
        by (unfold Steps.defs_visit; by rewrite Hc).
      assert (defs_entry target e = None) as ->
        by (unfold ScanSteps.defs_entry; by rewrite Hc).
      apply IH; [done | done |]. intros n Hn. apply Hfresh. by right.
Qed.

(** X19.  On schemas with distinct names, none of them [__proto__] or
    an array index, [$defs] lists the schemas that convert, in the order
    of the list, each under its name with its converted document less
    the [$schema] key. *)
Theorem combined_defs_in_order (schemas : list SchemaExport)
    (outputDir target : string) (format : bool) :
  NoDup (map name schemas) ->
  forallb ordinary_key (map name schemas) = true ->
  (writeCombinedOutput schemas outputDir target format).(combinedFile)
  = {| path := path_join outputDir "schemas.json";
       content :=
         serialize format
           (Object [("$schema", Str (getSchemaUrl target));
                    ("$defs", Object (omap (defs_entry target) schemas))]) |}.
Proof.
  intros Hnd Hkeys. rewrite writeCombinedOutput_spec. cbn [combinedFile].
  by rewrite defs_fold_fresh.
Qed.

Lemma separate_file_path (outputDir target : string) (format : bool)
    (schemas : list SchemaExport) (file : FileWrite) :
  file ∈ omap (separate_file outputDir target format) schemas ->
  exists leaf, file.(path) = path_join outputDir leaf.
Proof.
  intros (entry & _ & Hfile)%list_elem_of_omap.
  unfold Steps.separate_file in Hfile.
  destruct (convert _ _ _); [|discriminate].
  injection Hfile as <-. by eexists.
Qed.

(** X20.  What [run] does to the file system after the scan: nothing
    when the scan is empty; otherwise it creates the output directory
    first and then only writes files, each at a path joined to the
    output directory. *)
Theorem run_from_scan_actions (scanResults : list SchemaFile)
    (outputDir target : string) (combined format : bool) :
  (scanResults = []
   /\ run_from_scan scanResults outputDir combined target format = [])
  \/ (scanResults <> []
      /\ exists files : list FileWrite,
           run_from_scan scanResults outputDir combined target format
           = Mkdir outputDir :: map WriteFile files
           /\ Forall (fun file => exists leaf,
                        file.(path) = path_join outputDir leaf) files).
Proof.
  destruct scanResults as [|f fs]; [by left|]. right. split; [done|].
  unfold Cli.run_from_scan. cbn [length Nat.eqb]. destruct combined.
  - eexists [_]. split; [reflexivity|].
    rewrite writeCombinedOutput_spec. cbn [combinedFile].
    constructor; [|constructor]. by eexists.
  - eexists. split; [reflexivity|].
    apply Forall_forall. intros file Hfile.
    rewrite writeSeparateOutputs_spec in Hfile. cbn [written] in Hfile.
    by eapply separate_file_path.
Qed.

Lemma separate_files_all_fail (outputDir target : string) (format : bool)
    (schemas : list SchemaExport) :
  Forall (fun entry => exists error,
            toJSONSchema entry.(schema) target = Throw error) schemas ->
  omap (separate_file outputDir target format) schemas = [].
Proof.
  induction 1 as [|entry schemas [error Hthrow] _ IH]; [done|].
  cbn [omap list_omap]. unfold Steps.separate_file at 1.
  by rewrite (convert_Throw toJSONSchema _ entry.(name) _ _ Hthrow).
Qed.

(** X24.  In separate mode, when the scan found schemas but every
    conversion fails, [run] still creates the output directory and
    writes no file into it. *)
Theorem separate_run_when_every_conversion_fails
    (scanResults : list SchemaFile) (outputDir target : string)
    (format : bool) :
  scanResults <> [] ->
  Forall (fun entry => exists error,
            toJSONSchema entry.(schema) target = Throw error)
         (flattenSchemas basename scanResults) ->
  run_from_scan scanResults outputDir false target format = [Mkdir outputDir].
Proof.
  intros Hne Hfail. unfold Cli.run_from_scan.
  destruct scanResults as [|f fs]; [done|]. cbn [length Nat.eqb].
  rewrite writeSeparateOutputs_spec. cbn [written].
  by rewrite separate_files_all_fail.
Qed.

End WriterMore.

(** ** The driver *)

Section RunFacts.

Variable toJSONSchema : Value -> string -> Result Record.
Variable basename : string -> string -> string.
Variable path_join : string -> string -> string.
Variable JSON_stringify : Value -> option nat -> string.
Variable fs_writeFile : string -> string -> Result unit.
Variable fs_mkdir : string -> Result unit.
Variable import_module : string -> Result (list (string * Value)).
Variable path_resolve : string -> string.
Variable stat : string -> Driver.StatOutcome.

Section Scans.

Variable glob : string -> string -> list string -> list string.

Local Abbreviation scanDirectory :=
  (Driver.scanDirectory import_module glob path_resolve path_join).

(** X21.  The aggregate of a scan is empty only when the scan is: past
    the early return of [run] there is at least one schema to convert. *)
Theorem flattenSchemas_of_scan_nonempty (inputDir : string)
    (options : Driver.ScanOptions.t) :
  flattenSchemas basename (scanDirectory inputDir options) = []
  <-> scanDirectory inputDir options = [].
Proof.
  split; [|by intros ->].
  pose proof (scanDirectory_files_nonempty import_module glob path_resolve
                path_join inputDir options) as Hne.
  destruct (scanDirectory inputDir options) as [|f fs]; [done|].
  apply Forall_cons in Hne as [Hf _]. intros Hflat.
  by apply (flattenSchemas_head basename f fs Hf) in Hflat.
Qed.

End Scans.

Variable glob : string -> string -> list string -> Result (list string).

Local Abbreviation scan_of files :=
  (Driver.scanDirectory import_module (fun _ _ _ => files) path_resolve
     path_join).
Local Abbreviation matched_paths files :=
  (ScanSteps.matched_paths (fun _ _ _ => files) path_resolve path_join).
Local Abbreviation writeCombinedOutput :=
  (Cli.writeCombinedOutput toJSONSchema path_join JSON_stringify).
Local Abbreviation write_ok := (Steps.write_ok fs_writeFile).
Local Abbreviation run :=
  (Driver.run toJSONSchema basename path_join JSON_stringify
     fs_writeFile fs_mkdir import_module glob path_resolve stat).
Local Abbreviation exit_code :=
  (Driver.exit_code toJSONSchema basename path_join JSON_stringify
     fs_writeFile fs_mkdir import_module glob path_resolve stat).

Lemma write_ok_spec (file : FileWrite) :
  write_ok file = true
  <-> exists resolved, fs_writeFile file.(path) file.(content) = Ok resolved.
Proof.
  unfold Steps.write_ok.
  destruct (fs_writeFile _ _) as [u|e]; split; try done.
  - intros _. by exists u.
  - by intros [? ?].
Qed.

(** X22.  [run] ends with exit code 0 exactly when the input path is a
    directory, the file matcher resolves, and either the scan finds no
    schema or [fs.mkdir] resolves and, in combined mode, the write of
    [schemas.json] resolves.  So a failing import, a failing conversion
    and, in separate mode, a failing write never fail the run.  When the
    check of the input fails, the error is that the path is not a
    directory, that it does not exist, or the error of [fs.stat] passed
    on. *)
Theorem run_exit_code (inputDir : string) (options : Driver.CLIOptions.t) :
  let absoluteInput := path_resolve inputDir in
  let absoluteOutput := path_resolve options.(Driver.CLIOptions.output) in
  let scanOptions :=
    {| Driver.ScanOptions.verbose :=
         Some options.(Driver.CLIOptions.verbose);
       Driver.ScanOptions.pattern :=
         Some options.(Driver.CLIOptions.pattern);
       Driver.ScanOptions.exclude :=
         Some options.(Driver.CLIOptions.exclude) |} in
  (exit_code inputDir options = 0 <->
   stat absoluteInput = Driver.Stat true
   /\ exists files,
        glob options.(Driver.CLIOptions.pattern)
             (path_resolve absoluteInput)
             options.(Driver.CLIOptions.exclude) = Ok files
        /\ (scan_of files absoluteInput scanOptions = []
            \/ ((exists resolved, fs_mkdir absoluteOutput = Ok resolved)
                /\ (options.(Driver.CLIOptions.combined) = true ->
                    write_ok
                      (writeCombinedOutput
                         (flattenSchemas basename
                            (scan_of files absoluteInput scanOptions))
                         absoluteOutput
                         options.(Driver.CLIOptions.target)
                         options.(Driver.CLIOptions.format)).(combinedFile)
                    = true))))
  /\ (forall error : Exception,
        stat absoluteInput <> Driver.Stat true ->
        run inputDir options = Throw error ->
        (stat absoluteInput = Driver.Stat false
         /\ error = Error ("Input path is not a directory: "
                           +:+ absoluteInput))
        \/ (exists original,
              stat absoluteInput = Driver.StatThrows "ENOENT" original
              /\ error = Error ("Input directory does not exist: "
                                +:+ absoluteInput))
        \/ (exists code,
              code <> "ENOENT"
              /\ stat absoluteInput = Driver.StatThrows code error)).
Proof.
  cbv zeta. unfold Driver.exit_code, Driver.run, Driver.check_input,
    Driver.awaitScanDirectory, Steps.write_ok.
  cbn [Driver.ScanOptions.pattern Driver.ScanOptions.exclude
       default from_option id].
  destruct (stat (path_resolve inputDir)) as [[|]|code original] eqn:Hstat;
    cbn [negb].
  - split; [|done].
    destruct (glob _ _ _) as [files|e] eqn:Hglob.
    + destruct (Driver.scanDirectory _ _ _ _ _ _) as [|f fs] eqn:Hscan.
      * cbn. split; [|done]. intros _. split; [done|].
        exists files. split; [done | by left].
      * cbn [length Nat.eqb].
        destruct (fs_mkdir _) as [u|e] eqn:Hmkdir.
        -- destruct options.(Driver.CLIOptions.combined) eqn:Hcombined.
           ++ destruct (fs_writeFile _ _) as [u'|e'] eqn:Hwrite.
              ** split; [|done]. intros _. split; [done|].
                 exists files. split; [done|]. right. rewrite Hscan.
                 split; [by exists u|]. intros _. by rewrite Hwrite.
              ** split; [done|].
                 intros (_ & files' & [= <-] & Hrest).
                 rewrite Hscan in Hrest.
                 destruct Hrest as [Hnil|[_ Hok]]; [done|].
                 specialize (Hok eq_refl). by rewrite Hwrite in Hok.
           ++ split; [|done]. intros _. split; [done|].
              exists files. split; [done|]. right.
              split; [by exists u | done].
        -- split; [done|].
           intros (_ & files' & [= <-] & Hrest).
           rewrite Hscan in Hrest.
           by destruct Hrest as [Hnil|[[u Hu] _]].
    + split; [done|]. by intros (_ & files & ? & _).
  - rewrite bool_decide_eq_false_2 by done.
    split; [split; [done | by intros [? _]]|].
    intros error _ [= <-]. by left.
  - destruct (decide (code = "ENOENT")) as [->|Hcode].
    + rewrite bool_decide_eq_true_2 by done.
      split; [split; [done | by intros [? _]]|].
      intros error _ [= <-]. right. left. by exists original.
    + rewrite bool_decide_eq_false_2 by congruence.
      split; [split; [done | by intros [? _]]|].
      intros error _ [= <-]. right. right. by exists code.
Qed.

(** X23.  On a directory in which every matched file fails to load,
    [run] touches nothing: no directory is created, no file is written,
    and the run ends normally. *)
Theorem run_nothing_loads (inputDir : string)
    (options : Driver.CLIOptions.t) (files : list string) :
  stat (path_resolve inputDir) = Driver.Stat true ->
  glob options.(Driver.CLIOptions.pattern)
       (path_resolve (path_resolve inputDir))
       options.(Driver.CLIOptions.exclude) = Ok files ->
  Forall (fun p => exists error, import_module p = Throw error)
         (matched_paths files (path_resolve inputDir)
            {| Driver.ScanOptions.verbose :=
                 Some options.(Driver.CLIOptions.verbose);
               Driver.ScanOptions.pattern :=
                 Some options.(Driver.CLIOptions.pattern);
               Driver.ScanOptions.exclude :=
                 Some options.(Driver.CLIOptions.exclude) |}) ->
  run inputDir options = Ok [] /\ exit_code inputDir options = 0.
Proof.
  intros Hstat Hglob Hfail.
  assert (run inputDir options = Ok []) as Hrun.
  { unfold Driver.run, Driver.check_input, Driver.awaitScanDirectory.
    rewrite Hstat. cbn [negb].
    cbn [Driver.ScanOptions.pattern Driver.ScanOptions.exclude
         default from_option id].
    rewrite Hglob. by rewrite scanDirectory_all_fail. }
  split; [exact Hrun|]. unfold Driver.exit_code. by rewrite Hrun.
Qed.

End RunFacts.

(** ** The further properties, run on the stand-ins *)

Lemma scanDirectory_entries_witness :
  {| filePath := "/src/user.ts"; schemas := [user_export] |}
  ∈ Driver.scanDirectory demo_import demo_glob demo_resolve demo_join
      "/src" no_options
  /\ import_ok demo_import "/src/user.ts" = true.
Proof.
  assert ({| filePath := "/src/user.ts"; schemas := [user_export] |}
          ∈ Driver.scanDirectory demo_import demo_glob demo_resolve demo_join
              "/src" no_options) as Hin
    by (vm_compute; apply list_elem_of_here).
  split; [exact Hin|].
  destruct (scanDirectory_entries demo_import demo_glob demo_resolve
              demo_join "/src" no_options _ Hin)
    as (module & _ & Himport & _).
  unfold import_ok. cbn [filePath] in Himport. by rewrite Himport.
Defined.

Lemma scanDirectory_paths_witness :
  demo_import "/src/broken.ts"
  = Throw (Raised "SyntaxError: Unexpected token")
  /\ "/src/broken.ts"
     ∉ map filePath
         (Driver.scanDirectory demo_import demo_glob demo_resolve demo_join
            "/src" no_options).
Proof.
  split; [reflexivity|].
  exact (proj1 (proj2 (scanDirectory_paths demo_import demo_glob
                         demo_resolve demo_join "/src" no_options))
           "/src/broken.ts" _ eq_refl).
Defined.

Lemma separate_documents_have_schema_and_title_witness :
  {| path := "/out/User.json"; content := "$schema,title,type" |}
  ∈ (writeSeparateOutputs demo_toJSONSchema demo_join demo_stringify
          demo_writeFile
       [user_export] "/out" "draft-7" true).(written)
  /\ exists document : Record,
       "$schema,title,type" = demo_stringify (Object document) (Some 2)
       /\ has "$schema" document = true
       /\ has "title" document = true.
Proof.
  assert ({| path := "/out/User.json"; content := "$schema,title,type" |}
          ∈ (writeSeparateOutputs demo_toJSONSchema demo_join demo_stringify
          demo_writeFile
               [user_export] "/out" "draft-7" true).(written)) as Hin
    by (vm_compute; apply list_elem_of_here).
  split; [exact Hin|].
  destruct (separate_documents_have_schema_and_title
              demo_toJSONSchema demo_join demo_stringify demo_writeFile
              [user_export] "/out" "draft-7" true _ Hin)
    as (entry & document & _ & _ & Hcontent & Hschema & Htitle).
  exists document. by repeat split.
Defined.


Lemma combined_defs_in_order_witness :
  NoDup (map name [bad_export; user_export])
  /\ forallb ordinary_key (map name [bad_export; user_export]) = true
  /\ (writeCombinedOutput demo_toJSONSchema demo_join demo_stringify
        [bad_export; user_export] "/out" "draft-7" true).(combinedFile)
     = {| path := "/out/schemas.json";
          content :=
            demo_stringify
              (Object [("$schema",
                        Str "http://json-schema.org/draft-07/schema#");
                       ("$defs",
                        Object [("User",
                                 Object [("title", Str "User");
                                         ("type", Str "object")])])])
              (Some 2) |}.
Proof.
  assert (NoDup (map name [bad_export; user_export])) as Hnd
    by (apply (bool_decide_unpack _); by vm_compute).
  split; [exact Hnd|]. split; [reflexivity|].
  exact (combined_defs_in_order demo_toJSONSchema demo_join demo_stringify
           [bad_export; user_export] "/out" "draft-7" true Hnd eq_refl).
Defined.

(** The condition of X19 on the names is needed: an export [z1Schema]
    has the display name [1], an array index, and [$defs] lists it
    before a schema that comes earlier in the list. *)
Example combined_defs_index_key_first :
  map name (export_of "z1Schema") = ["1"]
  /\ map fst
       (Cli.combined_loop demo_toJSONSchema "draft-7"
          (user_export :: export_of "z1Schema")
          {| defs := []; combinedErrors := 0 |}).(defs)
     = ["1"; "User"].
Proof. split; reflexivity. Qed.

(** In combined mode a write that rejects fails the run, while in
    separate mode the loop counts it as an error and the run ends
    normally. *)
Example run_when_the_write_rejects :
  let rejects := fun _ _ : string => Throw (Raised "Error: EACCES") in
  let combined_options :=
    {| Driver.CLIOptions.output := "/out";
       Driver.CLIOptions.combined := true;
       Driver.CLIOptions.separate := true;
       Driver.CLIOptions.target := "draft-7";
       Driver.CLIOptions.format := true;
       Driver.CLIOptions.verbose := false;
       Driver.CLIOptions.pattern := "**/*.ts";
       Driver.CLIOptions.exclude := ["**/*.test.ts"; "**/*.spec.ts"] |} in
  Driver.exit_code demo_toJSONSchema posix_basename demo_join
    demo_stringify rejects demo_mkdir demo_import demo_matcher
    demo_resolve demo_stat "/src" combined_options = 1
  /\ Driver.exit_code demo_toJSONSchema posix_basename demo_join
       demo_stringify rejects demo_mkdir demo_import demo_matcher
       demo_resolve demo_stat "/src" demo_options = 0
  /\ (Cli.writeSeparateOutputs demo_toJSONSchema demo_join demo_stringify
        rejects [user_export] "/out" "draft-7" true)
     = {| written :=
            [{| path := "/out/User.json";
                content := "$schema,title,type" |}];
          successCount := 0; errorCount := 1 |}.
Proof. repeat split; reflexivity. Qed.

Lemma run_exit_code_witness :
  demo_stat (demo_resolve "/src") = Driver.Stat true
  /\ demo_mkdir (demo_resolve "/out") = Ok tt
  /\ Driver.exit_code demo_toJSONSchema posix_basename demo_join
       demo_stringify demo_writeFile demo_mkdir demo_import demo_matcher
       demo_resolve demo_stat "/src" demo_options = 0.
Proof.
  split; [reflexivity|]. split; [reflexivity|].
  apply (proj2 (proj1 (run_exit_code demo_toJSONSchema posix_basename
                         demo_join demo_stringify demo_writeFile demo_mkdir
                         demo_import demo_resolve demo_stat demo_matcher
                         "/src" demo_options))).
  split; [reflexivity|].
  exists ["user.ts"; "broken.ts"; "empty.ts"]. split; [reflexivity|].
  right. split; [by exists tt | discriminate].
Defined.

Lemma run_nothing_loads_witness :
  demo_stat (demo_resolve "/src") = Driver.Stat true
  /\ Driver.run demo_toJSONSchema posix_basename demo_join demo_stringify
       demo_writeFile demo_mkdir failing_import demo_matcher demo_resolve
       demo_stat "/src" demo_options
     = Ok [].
Proof.
  split; [reflexivity|].
  refine (proj1 (run_nothing_loads demo_toJSONSchema posix_basename
                   demo_join demo_stringify demo_writeFile demo_mkdir
                   failing_import demo_resolve demo_stat demo_matcher
                   "/src" demo_options ["user.ts"; "broken.ts"; "empty.ts"]
                   eq_refl eq_refl _)).
  repeat constructor; by eexists.
Defined.

Lemma separate_run_when_every_conversion_fails_witness :
  one_file [bad_export] <> []
  /\ run_from_scan demo_toJSONSchema posix_basename demo_join demo_stringify
       demo_writeFile
       (one_file [bad_export]) "/out" false "draft-7" true
     = [Mkdir "/out"].
Proof.
  assert (one_file [bad_export] <> []) as Hne by discriminate.
  split; [exact Hne|].
  refine (separate_run_when_every_conversion_fails demo_toJSONSchema
            posix_basename demo_join demo_stringify demo_writeFile
            (one_file [bad_export])
            "/out" "draft-7" true Hne _).
  assert (flattenSchemas posix_basename (one_file [bad_export])
          = [bad_export]) as -> by (vm_compute; reflexivity).
  repeat constructor. by eexists.
Defined.
